(** * php-cookie-challenge: the challenge-handling pipeline

    A shallow embedding of [src/cookieChallenge.js] and [src/client.js], and
    the properties of the pipeline proved on it.

    Conventions of the embedding.
    - A JavaScript string is a [string]: a sequence of code units, here the
      code units below 256.
    - A number handled by the hex codec is an integer or [NaN].
    - The headers object of a request or a response is a
      [gmap string string].
    - An asynchronous function is a computation in the monad [M]: it reads
      and extends the log of the observable calls ([client.get],
      [client.request], [console.error]) and ends resolved or rejected.
    - What the platform does and the repository does not define ([new URL],
      the serialisation of [URLSearchParams], the evaluation of the fetched
      script) is a field of the record [Platform]; the theorems hold for
      every platform.
    - The client is a record of its capabilities. [transportClient] is a
      client without interceptors; [createAxiosClient] is the instance of
      [client.js], whose requests pass through the handlers it registers. *)

From Stdlib Require Import ZArith Ascii String List Bool Lia.
From stdpp Require Import base option list strings gmap.

Set Default Proof Using "Type".

(* ===================================================================== *)
(** ** Strings *)
(* ===================================================================== *)

Module JsString.

(** [s.startsWith(p)] *)
Fixpoint startsWith (s p : string) : bool :=
  match p, s with
  | EmptyString, _ => true
  | String _ _, EmptyString => false
  | String b p', String a s' => if Ascii.eqb a b then startsWith s' p' else false
  end.

(** [s.includes(p)]: [p] occurs in [s] at some index. *)
Fixpoint includes (s p : string) : bool :=
  startsWith s p ||
  match s with
  | EmptyString => false
  | String _ s' => includes s' p
  end.

(** The declarative reading of "the body contains the literal [p]". *)
Definition contains (s p : string) : Prop :=
  exists pre post : string, s = pre +:+ p +:+ post.

(** ASCII part of [String.prototype.toLowerCase]. *)
Definition lowerChar (c : ascii) : ascii :=
  let n := nat_of_ascii c in
  if (65 <=? n)%nat && (n <=? 90)%nat then ascii_of_nat (n + 32) else c.

Fixpoint toLowerCase (s : string) : string :=
  match s with
  | EmptyString => EmptyString
  | String c s' => String (lowerChar c) (toLowerCase s')
  end.

(** Truthiness of a possibly absent string: [undefined] and [''] are falsy. *)
Definition truthy (o : option string) : bool :=
  match o with
  | Some (String _ _) => true
  | _ => false
  end.

Fixpoint forallb (p : ascii -> bool) (s : string) : bool :=
  match s with
  | EmptyString => true
  | String c s' => p c && forallb p s'
  end.

End JsString.

(* ===================================================================== *)
(** ** Requests, responses, errors *)
(* ===================================================================== *)

(** A value found in [response.data]: a string, or anything else, observed
    only through its truthiness and its [String(...)] conversion. *)
Inductive JsData :=
| DString (s : string)
| DOther (isTruthy : bool) (asString : string).

Definition data_truthy (d : JsData) : bool :=
  match d with
  | DString s => JsString.truthy (Some s)
  | DOther t _ => t
  end.

(** The axios request descriptor ([response.config]). *)
Record RequestConfig := mkConfig {
  cfg_url : option string;
  cfg_method : option string;
  cfg_baseURL : option string;
  cfg_headers : gmap string string;
  cfg_data : option string;
  cfg_responseType : option string
}.

(** The axios response object; [resp_ref] is the identity of the object. *)
Record Response := mkResponse {
  resp_ref : nat;
  resp_data : JsData;
  resp_status : Z;
  resp_headers : gmap string string;
  resp_config : RequestConfig
}.

(** A thrown value: an [Error] with its message and, for a transport error
    of axios, the response it carries. *)
Record JsError := mkError {
  err_message : string;
  err_response : option Response
}.

(* ===================================================================== *)
(** ** Detector *)
(* ===================================================================== *)

Definition markers : list string :=
  ["slowAES.decrypt"; "__test="; "location.href"; "/aes.js"].

(** [detectCookieChallenge(response)]; [None] is a null or undefined
    response. *)
Definition detectCookieChallenge (response : option Response) : bool :=
  match response with
  | None => false
  | Some r =>
    if negb (data_truthy (resp_data r)) then false
    else
      let data := match resp_data r with DString s => s | DOther _ _ => "" end in
      let hasSlowAES := JsString.includes data "slowAES.decrypt" in
      let hasTestCookie := JsString.includes data "__test=" in
      let hasLocationRedirect := JsString.includes data "location.href" in
      let hasAesJs := JsString.includes data "/aes.js" in
      hasSlowAES && hasTestCookie && hasLocationRedirect && hasAesJs
  end.

(* ===================================================================== *)
(** ** Hex codec *)
(* ===================================================================== *)

(** A JavaScript number as the codec meets it: an integer or [NaN]. *)
Inductive JsNumber :=
| NInt (z : Z)
| NaN.

Module Hex.

(** Value of a hexadecimal digit, either case. *)
Definition digitValue (c : ascii) : option Z :=
  let n := Z.of_nat (nat_of_ascii c) in
  if (48 <=? n)%Z && (n <=? 57)%Z then Some (n - 48)%Z
  else if (97 <=? n)%Z && (n <=? 102)%Z then Some (n - 87)%Z
  else if (65 <=? n)%Z && (n <=? 70)%Z then Some (n - 55)%Z
  else None.

(** The class [[a-fA-F0-9]]. *)
Definition isHexDigit (c : ascii) : bool :=
  match digitValue c with Some _ => true | None => false end.

(** White space that [parseInt] strips and that [\s] matches: TAB, LF, VT,
    FF, CR, SP, NBSP. *)
Definition isWhiteSpace (c : ascii) : bool :=
  let n := nat_of_ascii c in
  ((9 <=? n)%nat && (n <=? 13)%nat) || (n =? 32)%nat || (n =? 160)%nat.

(** Line terminators, which [.] does not match: LF and CR. *)
Definition isLineTerminator (c : ascii) : bool :=
  let n := nat_of_ascii c in (n =? 10)%nat || (n =? 13)%nat.

Fixpoint skipWhiteSpace (s : string) : string :=
  match s with
  | String c s' => if isWhiteSpace c then skipWhiteSpace s' else s
  | EmptyString => s
  end.

(** Longest prefix of hex digits, accumulated most significant first;
    [None] when the prefix is empty. *)
Fixpoint digitsValue (acc : option Z) (s : string) : option Z :=
  match s with
  | String c s' =>
    match digitValue c with
    | Some d => digitsValue (Some (16 * default 0%Z acc + d)%Z) s'
    | None => acc
    end
  | EmptyString => acc
  end.

Definition stripHexPrefix (s : string) : string :=
  match s with
  | String "0" (String "x" s') => s'
  | String "0" (String "X" s') => s'
  | _ => s
  end.

(** [parseInt(s, 16)] *)
Definition parseInt16 (s : string) : JsNumber :=
  let s1 := skipWhiteSpace s in
  let '(sign, s2) :=
    match s1 with
    | String "-" s' => ((-1)%Z, s')
    | String "+" s' => (1%Z, s')
    | _ => (1%Z, s1)
    end in
  match digitsValue None (stripHexPrefix s2) with
  | Some v => NInt (sign * v)
  | None => NaN
  end.

(** [toNumbers(hex)]: [hex.replace(/(..)/g, cb)] calls [cb] on each pair of
    characters matched from the left; a position where [..] does not match
    is skipped, and so is a last single character. *)
Fixpoint toNumbers (hex : string) : list JsNumber :=
  match hex with
  | String c1 (String c2 rest as tl) =>
    if negb (isLineTerminator c1) && negb (isLineTerminator c2)
    then parseInt16 (String c1 (String c2 EmptyString)) :: toNumbers rest
    else toNumbers tl
  | _ => []
  end.

Definition hexChar (d : N) : ascii :=
  match d with
  | 0%N => "0" | 1%N => "1" | 2%N => "2" | 3%N => "3"
  | 4%N => "4" | 5%N => "5" | 6%N => "6" | 7%N => "7"
  | 8%N => "8" | 9%N => "9" | 10%N => "a" | 11%N => "b"
  | 12%N => "c" | 13%N => "d" | 14%N => "e" | _ => "f"
  end%char.

Fixpoint digits16 (fuel : nat) (n : N) (acc : string) : string :=
  match fuel with
  | O => acc
  | S fuel' =>
    let acc' := String (hexChar (n mod 16)) acc in
    if (n / 16 =? 0)%N then acc' else digits16 fuel' (n / 16) acc'
  end.

(** [n.toString(16)] *)
Definition toString16 (n : JsNumber) : string :=
  match n with
  | NaN => "NaN"
  | NInt z =>
    let m := Z.to_N (Z.abs z) in
    let ds := digits16 (S (N.to_nat (N.log2 m))) m "" in
    if (z <? 0)%Z then String "-" ds else ds
  end.

(** [n < 16] *)
Definition lt16 (n : JsNumber) : bool :=
  match n with
  | NInt z => (z <? 16)%Z
  | NaN => false
  end.

(** What one iteration of the loop of [toHex] appends. *)
Definition hexOf (n : JsNumber) : string :=
  (if lt16 n then "0" else "") +:+ toString16 n.

(** [toHex(numbers)] *)
Definition toHex (numbers : list JsNumber) : string :=
  JsString.toLowerCase
    (fold_left (fun result n => result +:+ hexOf n) numbers "").

(** The two lowercase hexadecimal digits of a byte. *)
Definition byteHex (x : Z) : string :=
  String (hexChar (Z.to_N (x / 16))) (String (hexChar (Z.to_N (x mod 16))) "").

Fixpoint bytesHex (b : list Z) : string :=
  match b with
  | [] => ""
  | x :: b' => byteHex x +:+ bytesHex b'
  end.

(** The checks behind the round trip at one byte. *)
Definition byteChecks (n : nat) : bool :=
  let x := Z.of_nat n in
  String.eqb (hexOf (NInt x)) (byteHex x) &&
  String.eqb (JsString.toLowerCase (byteHex x)) (byteHex x) &&
  match toNumbers (byteHex x) with
  | [NInt y] => (y =? x)%Z
  | _ => false
  end &&
  JsString.forallb (fun c => negb (isLineTerminator c)) (byteHex x).

End Hex.

(* ===================================================================== *)
(** ** Extractor *)
(* ===================================================================== *)

Module Regex.

(** The fragment of regular expressions the extractor uses. Quantifiers
    are greedy and backtrack. *)
Inductive Atom :=
| Lit (c : ascii)
| Star (cls : ascii -> bool)
| Plus (cls : ascii -> bool)
| Capture (cls : ascii -> bool).

Fixpoint lits (s : string) : list Atom :=
  match s with
  | EmptyString => []
  | String c s' => Lit c :: lits s'
  end.

Section Matcher.
Context {R : Type}.

(** [cls*] then [k]: take one more character first, give it back when the
    rest fails. *)
Fixpoint star (cls : ascii -> bool) (k : string -> option R) (s : string)
  : option R :=
  match s with
  | String c s' =>
    if cls c then
      match star cls k s' with
      | Some r => Some r
      | None => k s
      end
    else k s
  | EmptyString => k s
  end.

(** [(cls+)] then [k]; [acc] is the text captured so far. *)
Fixpoint plusCapture (cls : ascii -> bool) (k : string -> string -> option R)
  (acc : string) (s : string) : option R :=
  match s with
  | String c s' =>
    if cls c then
      let acc' := acc +:+ String c EmptyString in
      match plusCapture cls k acc' s' with
      | Some r => Some r
      | None => k acc' s'
      end
    else None
  | EmptyString => None
  end.

End Matcher.

(** Match [re] at the start of [s]; the result is the captured groups. *)
Fixpoint matchHere (re : list Atom) (caps : list string) (s : string)
  : option (list string) :=
  match re with
  | [] => Some caps
  | Lit c :: re' =>
    match s with
    | String d s' => if Ascii.eqb c d then matchHere re' caps s' else None
    | EmptyString => None
    end
  | Star cls :: re' => star cls (matchHere re' caps) s
  | Plus cls :: re' =>
    plusCapture cls (fun _ s' => matchHere re' caps s') "" s
  | Capture cls :: re' =>
    plusCapture cls (fun cap s' => matchHere re' (caps ++ [cap]) s') "" s
  end.

(** [s.match(re)] for a regular expression without the [g] flag: the match
    at the leftmost index that has one. *)
Fixpoint jsMatch (re : list Atom) (s : string) : option (list string) :=
  match matchHere re [] s with
  | Some caps => Some caps
  | None =>
    match s with
    | String _ s' => jsMatch re s'
    | EmptyString => None
    end
  end.

(** [m[i]] for a capturing group [i >= 1]. *)
Definition group (i : nat) (m : list string) : string :=
  nth (i - 1) m "".

End Regex.

Import Regex.

(** The character U+0022. *)
Definition dquote : ascii := ascii_of_nat 34.

(** [x\s*=\s*toNumbers\s*\(\s*"([a-fA-F0-9]+)"\s*\)] *)
Definition assignRe (x : ascii) : list Atom :=
  [Lit x; Star Hex.isWhiteSpace; Lit "="; Star Hex.isWhiteSpace] ++
  lits "toNumbers" ++
  [Star Hex.isWhiteSpace; Lit "("; Star Hex.isWhiteSpace; Lit dquote;
   Capture Hex.isHexDigit; Lit dquote; Star Hex.isWhiteSpace; Lit ")"].

(** [/var\s+x\s*=\s*toNumbers\s*\(\s*"([a-fA-F0-9]+)"\s*\)/] *)
Definition varRe (x : ascii) : list Atom :=
  lits "var" ++ [Plus Hex.isWhiteSpace] ++ assignRe x.

(** [\s*,\s*] *)
Definition commaRe : list Atom :=
  [Star Hex.isWhiteSpace; Lit ","; Star Hex.isWhiteSpace].

(** The regular expression of [allMatch]. *)
Definition allRe : list Atom :=
  varRe "a" ++ commaRe ++ assignRe "b" ++ commaRe ++ assignRe "c".

Record EncryptedValues := mkEncrypted {
  ev_a : string;
  ev_b : string;
  ev_c : string
}.

(** [extractEncryptedValues(html)]; [None] is [null]. *)
Definition extractEncryptedValues (html : string) : option EncryptedValues :=
  let aMatch := jsMatch (varRe "a") html in
  let bMatch := jsMatch (varRe "b") html in
  let cMatch := jsMatch (varRe "c") html in
  match aMatch, bMatch, cMatch with
  | Some am, Some bm, Some cm =>
    Some {| ev_a := group 1 am; ev_b := group 1 bm; ev_c := group 1 cm |}
  | _, _, _ =>
    match jsMatch allRe html with
    | Some allMatch =>
      Some {| ev_a := group 1 allMatch;
              ev_b := group 2 allMatch;
              ev_c := group 3 allMatch |}
    | None => None
    end
  end.

(** The text [s] does not begin with a character of the class. *)
Definition stops (cls : ascii -> bool) (s : string) : Prop :=
  match s with
  | EmptyString => True
  | String c _ => cls c = false
  end.

(** Number of capturing groups of a pattern. *)
Definition groupCount (re : list Atom) : nat :=
  length (List.filter (fun a => match a with Capture _ => true | _ => false end) re).

(** Every capturing group of the pattern ranges over hex digits. *)
Definition hexGroups (re : list Atom) : Prop :=
  Forall (fun a => match a with
                   | Capture cls => forall c, cls c = true -> Hex.isHexDigit c = true
                   | _ => True
                   end) re.

(** A value the patterns can capture: hexadecimal digits, at least one. *)
Definition isHexValue (s : string) : bool :=
  negb (String.eqb s "") && JsString.forallb Hex.isHexDigit s.

(** The two layouts of a challenge page's declaration. *)
Definition declares (x : ascii) (value : string) : string :=
  String x "=toNumbers(" +:+ String dquote value +:+ String dquote ")".

Definition multiStatement (x y z sep1 sep2 : string) : string :=
  "var " +:+ declares "a" x +:+ sep1 +:+
  "var " +:+ declares "b" y +:+ sep2 +:+
  "var " +:+ declares "c" z.

Definition commaJoined (x y z : string) : string :=
  "var " +:+ declares "a" x +:+ "," +:+ declares "b" y +:+ "," +:+
  declares "c" z.

(** No character of [s] is the letter v. *)
Definition noV (s : string) : bool :=
  JsString.forallb (fun c => negb (Ascii.eqb c "v")) s.

(* ===================================================================== *)
(** ** Effects *)
(* ===================================================================== *)

(** The calls an observer can count. *)
Inductive Event :=
| EvGet (url : string) (config : RequestConfig)
| EvRequest (config : RequestConfig)
| EvSolver (response : Response)
| EvConsoleError (label : string) (detail : string + JsError).

(** How an awaited operation ends. [OutOfFuel] is not a JavaScript
    outcome: it marks a run that needs more unfoldings of the re-entrant
    client than were granted. *)
Inductive Outcome (A : Type) :=
| Resolved (a : A)
| Rejected (e : JsError)
| OutOfFuel.
Arguments Resolved {A} a.
Arguments Rejected {A} e.
Arguments OutOfFuel {A}.

Definition M (A : Type) : Type := list Event -> Outcome A * list Event.

Definition ret {A} (a : A) : M A := fun log => (Resolved a, log).

Definition throw {A} (e : JsError) : M A := fun log => (Rejected e, log).

Definition diverge {A} : M A := fun log => (OutOfFuel, log).

Definition bind {A B} (m : M A) (f : A -> M B) : M B :=
  fun log =>
    match m log with
    | (Resolved a, log') => f a log'
    | (Rejected e, log') => (Rejected e, log')
    | (OutOfFuel, log') => (OutOfFuel, log')
    end.

(** [try { m } catch (error) { handler }] *)
Definition tryCatch {A} (m : M A) (handler : JsError -> M A) : M A :=
  fun log =>
    match m log with
    | (Rejected e, log') => handler e log'
    | other => other
    end.

Definition emit (ev : Event) : M unit := fun log => (Resolved tt, log ++ [ev]).

Notation "x <- m ;; k" := (bind m (fun x => k))
  (at level 90, m at level 89, right associativity).
Notation "m ;;; k" := (bind m (fun _ => k))
  (at level 90, right associativity).

(** [new Error(message)] *)
Definition newError (message : string) : JsError :=
  {| err_message := message; err_response := None |}.

(** A synchronous call that returns or throws. *)
Inductive Completion (A : Type) :=
| Normal (a : A)
| Throws (e : JsError).
Arguments Normal {A} a.
Arguments Throws {A} e.

(* ===================================================================== *)
(** ** Platform and client *)
(* ===================================================================== *)

(** A parsed URL, as far as the solver reads it. *)
Record URL := mkURL {
  url_protocol : string;
  url_host : string;
  url_pathname : string;
  url_searchParams : list (string * string)
}.

(** [decrypt(ciphertext, mode, key, iv)] *)
Definition DecryptFn : Type :=
  list JsNumber -> Z -> list JsNumber -> list JsNumber ->
  Completion (list JsNumber).

(** An object as the solver probes it: [decrypt] is [co_decrypt] when
    [typeof o.decrypt === 'function']; [co_nested] is
    [o.modeOfOperation.decrypt] when [o.modeOfOperation] is truthy and has a
    function there. *)
Record CryptoObject := mkCrypto {
  co_decrypt : option DecryptFn;
  co_nested : option DecryptFn
}.

(** The object literal [{}]. *)
Definition emptyObject : CryptoObject :=
  {| co_decrypt := None; co_nested := None |}.

(** What calling [new Function('slowAES', code)] on a fresh [{}] does: it
    throws, or it returns a value ([None] when the value is falsy) and leaves
    the object it was passed in some state. *)
Inductive ScriptOutcome :=
| ScriptThrows (e : JsError)
| ScriptReturns (result : option CryptoObject) (passedIn : CryptoObject).

Record Platform := mkPlatform {
  (** [new URL(input)] and [new URL(input, base)]; [None] when the
      constructor throws. *)
  newURL : string -> option string -> option URL;
  (** The serialisation of a [URLSearchParams] list. *)
  serializeParams : list (string * string) -> string;
  (** The evaluation of the script text fetched from [/aes.js], wrapped as
      [loadSlowAES] wraps it. *)
  runScript : string -> ScriptOutcome
}.

(** [params.set(name, value)]: the first pair named [name] takes the value
    and the later ones are removed; without such a pair, one is appended. *)
Fixpoint searchParams_set (name value : string) (params : list (string * string))
  : list (string * string) :=
  match params with
  | [] => [(name, value)]
  | (k, v) :: rest =>
    if String.eqb k name
    then (name, value) :: List.filter (fun p => negb (String.eqb (fst p) name)) rest
    else (k, v) :: searchParams_set name value rest
  end.

(** The values of the pairs named [name], and the pairs of other names. *)
Definition paramValues (name : string) (params : list (string * string))
  : list string :=
  map snd (List.filter (fun p => String.eqb (fst p) name) params).

Definition otherParams (name : string) (params : list (string * string))
  : list (string * string) :=
  List.filter (fun p => negb (String.eqb (fst p) name)) params.

(** [url.search] *)
Definition url_search (P : Platform) (u : URL) : string :=
  match serializeParams P (url_searchParams u) with
  | EmptyString => ""
  | q => "?" +:+ q
  end.

(** The client as the pipeline uses it: [client.defaults?.baseURL],
    [client.get(url, config)] and [client.request(config)]. *)
Record Client := mkClient {
  client_defaults_baseURL : option string;
  client_get : string -> RequestConfig -> M Response;
  client_request : RequestConfig -> M Response
}.

(** What the transport answers to a request, given the calls made so far. *)
Definition Network : Type := list Event -> RequestConfig -> JsError + Response.

Definition answer (net : Network) (config : RequestConfig) : M Response :=
  fun log =>
    match net log config with
    | inl e => (Rejected e, log)
    | inr r => (Resolved r, log)
    end.

Definition emptyConfig : RequestConfig :=
  {| cfg_url := None; cfg_method := None; cfg_baseURL := None;
     cfg_headers := ∅; cfg_data := None; cfg_responseType := None |}.

(** The descriptor that [client.get(url, config)] sends. *)
Definition getConfig (url : string) (config : RequestConfig) : RequestConfig :=
  {| cfg_url := Some url; cfg_method := Some "get";
     cfg_baseURL := cfg_baseURL config; cfg_headers := cfg_headers config;
     cfg_data := cfg_data config; cfg_responseType := cfg_responseType config |}.

(** A client without response interceptors: each call is logged and
    answered by the transport. *)
Definition transportClient (defaultBase : option string) (net : Network) : Client :=
  {| client_defaults_baseURL := defaultBase;
     client_get url config :=
       emit (EvGet url config) ;;; answer net (getConfig url config);
     client_request config :=
       emit (EvRequest config) ;;; answer net config |}.

(* ===================================================================== *)
(** ** CryptoLoader *)
(* ===================================================================== *)

Definition data_toString (d : JsData) : string :=
  match d with
  | DString s => s
  | DOther _ s => s
  end.

(** [loadSlowAES(client, baseURL)] *)
Definition loadSlowAES (P : Platform) (client : Client) (baseURL : string)
  : M CryptoObject :=
  tryCatch
    (response <- client_get client "/aes.js"
        {| cfg_url := None; cfg_method := None; cfg_baseURL := Some baseURL;
           cfg_headers := ∅; cfg_data := None;
           cfg_responseType := Some "text" |} ;;
     match runScript P (data_toString (resp_data response)) with
     | ScriptThrows e => throw e
     | ScriptReturns result slowAES =>
       match result with
       | Some r =>
         match co_decrypt r with
         | Some _ => ret r
         | None => ret slowAES
         end
       | None => ret slowAES
       end
     end)
    (fun error => throw (newError ("Failed to load slowAES: " +:+ err_message error))).

(** The configuration of the fetch, the error of a failed load, and what
    the loader resolves with once the script has run. *)
Definition aesConfig (baseURL : string) : RequestConfig :=
  {| cfg_url := None; cfg_method := None; cfg_baseURL := Some baseURL;
     cfg_headers := ∅; cfg_data := None; cfg_responseType := Some "text" |}.

Definition loadError (cause : JsError) : JsError :=
  newError ("Failed to load slowAES: " +:+ err_message cause).

Definition loaded (result : option CryptoObject) (passedIn : CryptoObject)
  : CryptoObject :=
  match result with
  | Some r => match co_decrypt r with Some _ => r | None => passedIn end
  | None => passedIn
  end.

(* ===================================================================== *)
(** ** ChallengeSolver *)
(* ===================================================================== *)

Definition originError : JsError :=
  newError "Could not determine base URL for slowAES loading".

(** Lines 138 to 155 of [processCookieChallenge]: the base URL, or the
    error thrown. *)
Definition determineBaseURL (P : Platform) (client : Client)
  (originalRequest : RequestConfig) : Completion string :=
  let baseURL := client_defaults_baseURL client in
  let found :=
    if negb (JsString.truthy baseURL) && JsString.truthy (cfg_url originalRequest)
    then
      match newURL P (default "" (cfg_url originalRequest)) None with
      | Some url => Normal (Some (url_protocol url +:+ "//" +:+ url_host url))
      | None =>
        if JsString.truthy (cfg_baseURL originalRequest)
        then Normal (cfg_baseURL originalRequest)
        else Throws originError
      end
    else Normal baseURL in
  match found with
  | Throws e => Throws e
  | Normal b =>
    if negb (JsString.truthy b) then Throws originError
    else Normal (default "" b)
  end.

(** [o || ''] *)
Definition orEmpty (o : option string) : string :=
  if JsString.truthy o then default "" o else "".

(** Lines 180 to 190: the URL of the retry. *)
Definition buildRetryUrl (P : Platform) (originalRequest : RequestConfig)
  (baseURL : string) : string :=
  let originalUrl := orEmpty (cfg_url originalRequest) in
  match newURL P originalUrl (Some baseURL) with
  | Some url =>
    let url' :=
      {| url_protocol := url_protocol url; url_host := url_host url;
         url_pathname := url_pathname url;
         url_searchParams := searchParams_set "i" "1" (url_searchParams url) |} in
    url_pathname url' +:+ url_search P url'
  | None =>
    originalUrl +:+ (if JsString.includes originalUrl "?" then "&" else "?") +:+ "i=1"
  end.

(** Lines 165 to 175: the call of [decrypt] under either shape. *)
Definition callDecrypt (slowAES : CryptoObject) (a b c : list JsNumber)
  : Completion (list JsNumber) :=
  match co_decrypt slowAES with
  | Some decrypt => decrypt c 2%Z a b
  | None =>
    match co_nested slowAES with
    | Some decrypt => decrypt c 2%Z a b
    | None => Throws (newError "slowAES.decrypt function not found")
    end
  end.

(** Lines 193 to 200: the descriptor of the retry. *)
Definition retryConfigOf (originalRequest : RequestConfig)
  (retryUrl cookieValue : string) : RequestConfig :=
  {| cfg_url := Some retryUrl;
     cfg_method := cfg_method originalRequest;
     cfg_baseURL := cfg_baseURL originalRequest;
     cfg_headers :=
       <["Cookie" := "__test=" +:+ cookieValue]> (cfg_headers originalRequest);
     cfg_data := cfg_data originalRequest;
     cfg_responseType := cfg_responseType originalRequest |}.

Definition liftCompletion {A} (c : Completion A) : M A :=
  match c with
  | Normal a => ret a
  | Throws e => throw e
  end.

(** [processCookieChallenge(response, client)] *)
Definition processCookieChallenge (P : Platform) (response : Response)
  (client : Client) : M Response :=
  let originalRequest := resp_config response in
  let html := data_toString (resp_data response) in
  match extractEncryptedValues html with
  | None => throw (newError "Could not extract encrypted values from challenge")
  | Some encrypted =>
    baseURL <- liftCompletion (determineBaseURL P client originalRequest) ;;
    slowAES <- loadSlowAES P client baseURL ;;
    let a := Hex.toNumbers (ev_a encrypted) in
    let b := Hex.toNumbers (ev_b encrypted) in
    let c := Hex.toNumbers (ev_c encrypted) in
    decrypted <- liftCompletion (callDecrypt slowAES a b c) ;;
    let cookieValue := Hex.toHex decrypted in
    let retryUrl := buildRetryUrl P originalRequest baseURL in
    let retryConfig := retryConfigOf originalRequest retryUrl cookieValue in
    retryResponse <- client_request client retryConfig ;;
    ret retryResponse
  end.

(* ===================================================================== *)
(** ** Interceptor *)
(* ===================================================================== *)

(** [console.error('Cookie challenge processing failed:', error.message || error)] *)
Definition logFailure (error : JsError) : M unit :=
  emit (EvConsoleError "Cookie challenge processing failed:"
          (if JsString.truthy (Some (err_message error))
           then inl (err_message error) else inr error)).

(** [createCookieChallengeInterceptor(client, detectFn, processFn)] *)
Definition createCookieChallengeInterceptor (client : Client)
  (detectFn : Response -> bool)
  (processFn : Response -> Client -> M Response) : Response -> M Response :=
  fun response =>
    let isChallenge := detectFn response in
    if isChallenge then
      tryCatch
        (processedResponse <- processFn response client ;;
         ret processedResponse)
        (fun error => logFailure error ;;; throw error)
    else ret response.

(** The interceptor with its default [detectFn] and [processFn]. *)
Definition defaultInterceptor (P : Platform) (client : Client)
  : Response -> M Response :=
  createCookieChallengeInterceptor client
    (fun response => detectCookieChallenge (Some response))
    (processCookieChallenge P).

(** A solver wrapped so that each call of it is logged. *)
Definition spied (processFn : Response -> Client -> M Response)
  : Response -> Client -> M Response :=
  fun response client => emit (EvSolver response) ;;; processFn response client.

(* ===================================================================== *)
(** ** Client construction ([client.js]) *)
(* ===================================================================== *)

(** The error handler that [createAxiosClient] registers next to the
    interceptor. *)
Definition onRejected (cookieChallengeInterceptor : Response -> M Response)
  (error : JsError) : M Response :=
  match err_response error with
  | Some response =>
    tryCatch
      (processedResponse <- cookieChallengeInterceptor response ;;
       ret processedResponse)
      (fun processError => throw error)
  | None => throw error
  end.

(** [createAxiosClient(config, challengeHandler)]: [baseURL] is
    [config.baseURL] and [net] the transport of the instance. What axios does
    with the pair of handlers registered by [client.interceptors.response.use]
    is [through]: the outcome of every request of the instance, sent by
    [client.get] or by [client.request], goes to the first handler when it is
    a response and to the second when it is an error. The interceptor holds
    the instance itself, so the instance is unfolded [fuel] times; a run that
    would need more ends [OutOfFuel]. *)
Fixpoint createAxiosClient (fuel : nat) (P : Platform)
  (baseURL : option string) (net : Network)
  (challengeHandler : option (Response -> M Response)) : Client :=
  match fuel with
  | O =>
    {| client_defaults_baseURL := baseURL;
       client_get _ _ := diverge;
       client_request _ := diverge |}
  | S fuel' =>
    let client := createAxiosClient fuel' P baseURL net challengeHandler in
    let cookieChallengeInterceptor :=
      match challengeHandler with
      | Some handler => handler
      | None => defaultInterceptor P client
      end in
    let through (sent : M Response) : M Response :=
      fun log =>
        match sent log with
        | (Resolved response, log') => cookieChallengeInterceptor response log'
        | (Rejected error, log') => onRejected cookieChallengeInterceptor error log'
        | (OutOfFuel, log') => (OutOfFuel, log')
        end in
    {| client_defaults_baseURL := baseURL;
       client_get url config :=
         through (emit (EvGet url config) ;;; answer net (getConfig url config));
       client_request config :=
         through (emit (EvRequest config) ;;; answer net config) |}
  end.

(* ===================================================================== *)
(** ** Sample data *)
(* ===================================================================== *)

Module Sample.

Definition q : string := String dquote "".

(** The declaration of the fixed parameters, comma-joined. *)
Definition declaration : string :=
  "var a=toNumbers(" +:+ q +:+ "f655ba9d09a112d4968c63579db590b4" +:+ q +:+
  "),b=toNumbers(" +:+ q +:+ "98344c2eee86c3994890592585b49f80" +:+ q +:+
  "),c=toNumbers(" +:+ q +:+ "fdd9f8ac7a55834004f21a883ac3e49e" +:+ q +:+ ");".

(** A challenge page. *)
Definition challengeHtml : string :=
  "<html><body><script src='/aes.js'></script><script>" +:+ declaration +:+
  "document.cookie='__test='+toHex(slowAES.decrypt(c,2,a,b));" +:+
  "location.href='https://hbcc.free.nf/test.php?i=1';</script></body></html>".

Definition jsonBody : JsData := DOther true "[object Object]".

(** The bytes the stub routine returns. *)
Definition plain : list JsNumber := [NInt 0; NInt 10; NInt 255; NInt 171].

Definition stubDecrypt : DecryptFn := fun _ _ _ _ => Normal plain.

(** A platform for the examples. [newURL] lists the inputs the examples
    use, with what the URL constructor gives on them, and throws elsewhere
    (as the constructor does on [/test] without a base); parameters are
    serialised as [name=value] joined by [&], which is right when no character
    needs escaping; three scripts are known, each binding a new object to
    [slowAES], so that the object passed in stays empty. *)
Definition platform : Platform :=
  {| newURL input base :=
       match input, base with
       | "/test.php", Some "https://hbcc.free.nf" =>
         Some {| url_protocol := "https:"; url_host := "hbcc.free.nf";
                 url_pathname := "/test.php"; url_searchParams := [] |}
       | "/test.php?i=1", Some "https://hbcc.free.nf" =>
         Some {| url_protocol := "https:"; url_host := "hbcc.free.nf";
                 url_pathname := "/test.php"; url_searchParams := [("i", "1")] |}
       | "https://hbcc.free.nf/test.php", None =>
         Some {| url_protocol := "https:"; url_host := "hbcc.free.nf";
                 url_pathname := "/test.php"; url_searchParams := [] |}
       | _, _ => None
       end;
     serializeParams params :=
       String.concat "&" (map (fun p => fst p +:+ "=" +:+ snd p) params);
     runScript text :=
       match text with
       | "var slowAES={decrypt:function(c,m,k,iv){return [0,10,255,171]}}" =>
         ScriptReturns (Some {| co_decrypt := Some stubDecrypt; co_nested := None |})
                       emptyObject
       | "var slowAES={modeOfOperation:{decrypt:function(c,m,k,iv){return [0,10,255,171]}}}" =>
         ScriptReturns (Some {| co_decrypt := None; co_nested := Some stubDecrypt |})
                       emptyObject
       | "var slowAES={}" =>
         ScriptReturns (Some emptyObject) emptyObject
       | _ => ScriptThrows (newError "Unexpected token")
       end |}.

Definition directScript : string :=
  "var slowAES={decrypt:function(c,m,k,iv){return [0,10,255,171]}}".

Definition nestedScript : string :=
  "var slowAES={modeOfOperation:{decrypt:function(c,m,k,iv){return [0,10,255,171]}}}".

(** The request [GET /test.php] of a client with the given base. *)
Definition request : RequestConfig :=
  {| cfg_url := Some "/test.php"; cfg_method := Some "get";
     cfg_baseURL := Some "https://hbcc.free.nf";
     cfg_headers := {[ "Accept" := "application/json" ]};
     cfg_data := None; cfg_responseType := None |}.

Definition challengeResponse : Response :=
  {| resp_ref := 1; resp_data := DString challengeHtml; resp_status := 200;
     resp_headers := ∅; resp_config := request |}.

Definition okResponse (config : RequestConfig) : Response :=
  {| resp_ref := 3; resp_data := jsonBody; resp_status := 200;
     resp_headers := ∅; resp_config := config |}.

Definition scriptResponse (script : string) (config : RequestConfig) : Response :=
  {| resp_ref := 2; resp_data := DString script; resp_status := 200;
     resp_headers := ∅; resp_config := config |}.

(** A host that serves [script] at [/aes.js] and the resource elsewhere. *)
Definition host (script : string) : Network :=
  fun _ config =>
    match cfg_url config with
    | Some "/aes.js" => inr (scriptResponse script config)
    | _ => inr (okResponse config)
    end.

(** A transport without a network. *)
Definition offline : Network := fun _ _ => inl (newError "Network Error").

Definition aesGet : Event :=
  EvGet "/aes.js"
    {| cfg_url := None; cfg_method := None;
       cfg_baseURL := Some "https://hbcc.free.nf"; cfg_headers := ∅;
       cfg_data := None; cfg_responseType := Some "text" |}.

(** A response with status 404 and the error axios makes of it. *)
Definition notFound : Response :=
  {| resp_ref := 4; resp_data := DString "Not Found"; resp_status := 404;
     resp_headers := ∅; resp_config := request |}.

Definition notFoundError : JsError :=
  {| err_message := "Request failed with status code 404";
     err_response := Some notFound |}.

(** A request that names its target by [baseURL] alone, and the challenge
    page answering it. *)
Definition requestByBase : RequestConfig :=
  {| cfg_url := None; cfg_method := Some "get";
     cfg_baseURL := Some "https://hbcc.free.nf/test.php";
     cfg_headers := ∅; cfg_data := None; cfg_responseType := None |}.

Definition challengeByBase : Response :=
  {| resp_ref := 5; resp_data := DString challengeHtml; resp_status := 200;
     resp_headers := ∅; resp_config := requestByBase |}.

(** A request that already carries a cookie, and the challenge page
    answering it. *)
Definition requestWithCookie : RequestConfig :=
  {| cfg_url := Some "/test.php"; cfg_method := Some "get";
     cfg_baseURL := Some "https://hbcc.free.nf";
     cfg_headers := {[ "Cookie" := "session=abc" ]};
     cfg_data := None; cfg_responseType := None |}.

Definition challengeWithCookie : Response :=
  {| resp_ref := 6; resp_data := DString challengeHtml; resp_status := 200;
     resp_headers := ∅; resp_config := requestWithCookie |}.

Definition requestCount (log : list Event) : nat :=
  length (List.filter (fun ev => match ev with EvRequest _ => true | _ => false end) log).

(** A host that answers with the challenge page until two retries have
    been sent, and serves [directScript] at [/aes.js]. *)
Definition challengesTwice : Network :=
  fun log config =>
    match cfg_url config with
    | Some "/aes.js" => inr (scriptResponse directScript config)
    | _ =>
      if (requestCount log <? 2)%nat
      then inr {| resp_ref := 10 + requestCount log;
                  resp_data := DString challengeHtml; resp_status := 200;
                  resp_headers := ∅; resp_config := config |}
      else inr (okResponse config)
    end.

End Sample.

(* ===================================================================== *)
(** ** Further notions for the properties *)
(* ===================================================================== *)

(** The 256 characters. *)
Definition allChars : list ascii := map ascii_of_nat (seq 0 256).

(** An integer from 0 to 255. *)
Definition isByte (n : JsNumber) : bool :=
  match n with
  | NInt z => (0 <=? z)%Z && (z <? 256)%Z
  | NaN => false
  end.

Definition noTerminator (s : string) : bool :=
  JsString.forallb (fun c => negb (Hex.isLineTerminator c)) s.

(** What decoding and encoding again do to two hex digits. *)
Definition pairChecks (c1 c2 : ascii) : bool :=
  negb (Hex.isHexDigit c1 && Hex.isHexDigit c2) ||
  (let n := Hex.parseInt16 (String c1 (String c2 "")) in
   isByte n &&
   String.eqb (Hex.hexOf n)
     (String (JsString.lowerChar c1) (String (JsString.lowerChar c2) ""))).

Definition lowerChecks (c : ascii) : bool :=
  Ascii.eqb (JsString.lowerChar (JsString.lowerChar c)) (JsString.lowerChar c).


(** An answer of the transport that the handlers of the instance leave
    alone: a response that is not a challenge, or an error without a
    response. *)
Definition plainAnswer (a : JsError + Response) : bool :=
  match a with
  | inr r => negb (detectCookieChallenge (Some r))
  | inl e => match err_response e with None => true | Some _ => false end
  end.

(** A host that serves the script at [/aes.js] and answers the retried
    request with the challenge page, each time. *)
Definition servesChallenge (net : Network) : Prop :=
  (forall log config, cfg_url config = Some "/aes.js" ->
     exists r, net log config = inr r /\
               resp_data r = DString Sample.directScript) /\
  (forall log config, cfg_url config = Some "/test.php?i=1" ->
     exists r, net log config = inr r /\
               resp_data r = DString Sample.challengeHtml /\
               resp_config r = config).

Definition alwaysChallenges : Network :=
  fun _ config =>
    match cfg_url config with
    | Some "/aes.js" => inr (Sample.scriptResponse Sample.directScript config)
    | _ => inr {| resp_ref := 20; resp_data := DString Sample.challengeHtml;
                  resp_status := 200; resp_headers := ∅;
                  resp_config := config |}
    end.

(** Two characters of which none is a hex digit do not parse. *)
Definition nonHexChecks (c1 c2 : ascii) : bool :=
  Hex.isHexDigit c1 || Hex.isHexDigit c2 ||
  match Hex.parseInt16 (String c1 (String c2 "")) with
  | NaN => true
  | NInt _ => false
  end.

Definition noHexDigit (s : string) : bool :=
  JsString.forallb (fun c => negb (Hex.isHexDigit c)) s.

(** No character of [s] is a comma. *)
Definition noComma (s : string) : bool :=
  JsString.forallb (fun c => negb (Ascii.eqb c ",")) s.

(** Declarations of [a] and [b] alone. *)
Definition twoStatements (x y sep : string) : string :=
  "var " +:+ declares "a" x +:+ sep +:+ "var " +:+ declares "b" y.

(* ===================================================================== *)
(** * Properties *)
(* ===================================================================== *)

(** ** Strings *)

#[local] Arguments String.append !s1 s2 : simpl nomatch.

Lemma append_assoc (a b c : string) : (a +:+ b) +:+ c = a +:+ (b +:+ c).
Proof. induction a as [|x a IH]; simpl; [reflexivity | now rewrite IH]. Qed.

Lemma append_empty_r (a : string) : a +:+ "" = a.
Proof. induction a as [|x a IH]; simpl; [reflexivity | now rewrite IH]. Qed.

Lemma startsWith_spec (s p : string) :
  JsString.startsWith s p = true <-> exists post, s = p +:+ post.
Proof.
  revert s. induction p as [|b p IH]; intros s.
  - split; [intros _; now exists s | intros _; now destruct s].
  - destruct s as [|a s]; simpl.
    + split; [discriminate | intros [post H]; discriminate].
    + destruct (Ascii.eqb_spec a b) as [->|Hne].
      * rewrite IH. split; intros [post H]; exists post; congruence.
      * split; [discriminate | intros [post H]; congruence].
Qed.

Lemma includes_unfold (s p : string) :
  JsString.includes s p =
  JsString.startsWith s p ||
  match s with
  | EmptyString => false
  | String _ s' => JsString.includes s' p
  end.
Proof. destruct s; reflexivity. Qed.

Lemma includes_spec (s p : string) :
  JsString.includes s p = true <-> JsString.contains s p.
Proof.
  split.
  - induction s as [|a s IH]; rewrite includes_unfold, orb_true_iff.
    + intros [H | H]; [| discriminate].
      apply startsWith_spec in H as [post ->]. now exists "", post.
    + intros [H | H].
      * apply startsWith_spec in H as [post ->]. now exists "", post.
      * destruct (IH H) as (pre & post & ->). now exists (String a pre), post.
  - intros (pre & post & ->). induction pre as [|a pre IH].
    + rewrite includes_unfold, orb_true_iff. left.
      apply startsWith_spec. now exists post.
    + change (String a pre +:+ p +:+ post) with (String a (pre +:+ p +:+ post)).
      rewrite includes_unfold, IH. apply orb_true_r.
Qed.

Lemma includes_false (s p : string) :
  JsString.includes s p = false <-> ~ JsString.contains s p.
Proof.
  rewrite <- includes_spec. symmetry. apply not_true_iff_false.
Qed.

(** ** Detector *)

(** A body that is not a string is never a challenge. *)
Lemma detect_non_string (r : Response) (t : bool) (s : string) :
  resp_data r = DOther t s -> detectCookieChallenge (Some r) = false.
Proof.
  intros H. unfold detectCookieChallenge. rewrite H. simpl.
  destruct t; reflexivity.
Qed.

Lemma detect_string (r : Response) (body : string) :
  resp_data r = DString body ->
  detectCookieChallenge (Some r) =
  JsString.includes body "slowAES.decrypt" && JsString.includes body "__test=" &&
  JsString.includes body "location.href" && JsString.includes body "/aes.js".
Proof.
  intros H. unfold detectCookieChallenge. rewrite H.
  destruct body as [|c body]; reflexivity.
Qed.

(** C1. [detectCookieChallenge] is true exactly on the responses whose
    body is a string that contains the four markers; on a response whose
    string body misses one of them it is false. *)
Theorem detect_iff_four_markers (r : Response) :
  (detectCookieChallenge (Some r) = true <->
     exists body : string,
       resp_data r = DString body /\
       JsString.contains body "slowAES.decrypt" /\
       JsString.contains body "__test=" /\
       JsString.contains body "location.href" /\
       JsString.contains body "/aes.js") /\
  (forall (body m : string),
     resp_data r = DString body -> In m markers -> ~ JsString.contains body m ->
     detectCookieChallenge (Some r) = false).
Proof.
  assert (Hstr : forall body, resp_data r = DString body ->
     (detectCookieChallenge (Some r) = true <->
        JsString.contains body "slowAES.decrypt" /\
        JsString.contains body "__test=" /\
        JsString.contains body "location.href" /\
        JsString.contains body "/aes.js")).
  { intros body Hdata. rewrite (detect_string r body Hdata).
    rewrite <- !includes_spec, !andb_true_iff. tauto. }
  split.
  - split.
    + intros Hdet. destruct (resp_data r) as [body | t s] eqn:Hdata.
      * exists body. split; [reflexivity |]. now apply Hstr.
      * rewrite (detect_non_string r t s Hdata) in Hdet. discriminate.
    + intros (body & Hdata & Hall). now apply (Hstr body Hdata).
  - intros body m Hdata Hin Hmiss.
    destruct (detectCookieChallenge (Some r)) eqn:Hdet; [| reflexivity].
    exfalso. destruct (proj1 (Hstr body Hdata) eq_refl) as (H1 & H2 & H3 & H4).
    simpl in Hin. destruct Hin as [<- | [<- | [<- | [<- | []]]]]; now apply Hmiss.
Qed.

Lemma detect_iff_four_markers_witness :
  detectCookieChallenge (Some Sample.challengeResponse) = true /\
  detectCookieChallenge
    (Some {| resp_ref := 7;
             resp_data := DString "slowAES.decrypt __test= location.href";
             resp_status := 200; resp_headers := ∅;
             resp_config := Sample.request |}) = false.
Proof.
  split.
  - apply (proj1 (detect_iff_four_markers Sample.challengeResponse)).
    exists Sample.challengeHtml. split; [reflexivity |].
    rewrite <- !includes_spec. repeat split; vm_compute; reflexivity.
  - apply (proj2 (detect_iff_four_markers _)
             "slowAES.decrypt __test= location.href" "/aes.js").
    + reflexivity.
    + simpl. tauto.
    + apply includes_false. vm_compute. reflexivity.
Defined.

(** ** Hex codec *)

Section HexFacts.

Let byte (x : Z) : Prop := (0 <= x < 256)%Z.

Lemma byteChecks_all : forallb Hex.byteChecks (seq 0 256) = true.
Proof. vm_compute. reflexivity. Qed.

Lemma byteChecks_byte (x : Z) : byte x -> Hex.byteChecks (Z.to_nat x) = true.
Proof.
  intros Hx. pose proof byteChecks_all as Hall.
  rewrite forallb_forall in Hall. apply Hall, in_seq. unfold byte in Hx. lia.
Qed.

Lemma byte_facts (x : Z) :
  byte x ->
  Hex.hexOf (NInt x) = Hex.byteHex x /\
  JsString.toLowerCase (Hex.byteHex x) = Hex.byteHex x /\
  Hex.toNumbers (Hex.byteHex x) = [NInt x] /\
  JsString.forallb (fun c => negb (Hex.isLineTerminator c)) (Hex.byteHex x) = true.
Proof.
  intros Hx. pose proof (byteChecks_byte x Hx) as Hc.
  unfold Hex.byteChecks in Hc. rewrite Z2Nat.id in Hc by (unfold byte in Hx; lia).
  rewrite !andb_true_iff in Hc. destruct Hc as (((H1 & H2) & H3) & H4).
  apply String.eqb_eq in H1, H2. repeat split; try assumption.
  destruct (Hex.toNumbers (Hex.byteHex x)) as [|[y|] [|? ?]]; try discriminate.
  apply Z.eqb_eq in H3. now subst.
Qed.

Lemma toNumbers_byteHex_app (x : Z) (rest : string) :
  byte x ->
  Hex.toNumbers (Hex.byteHex x +:+ rest) = NInt x :: Hex.toNumbers rest.
Proof.
  intros Hx. destruct (byte_facts x Hx) as (_ & _ & Hnum & Hterm).
  unfold Hex.byteHex in *. simpl in *.
  rewrite !andb_true_iff in Hterm. destruct Hterm as (H1 & H2 & _).
  rewrite H1, H2 in *. simpl in *. congruence.
Qed.

Lemma toLowerCase_app (a b : string) :
  JsString.toLowerCase (a +:+ b) = JsString.toLowerCase a +:+ JsString.toLowerCase b.
Proof. induction a as [|c a IH]; simpl; [reflexivity | now rewrite IH]. Qed.

Lemma toHex_loop (b : list Z) (acc : string) :
  Forall byte b ->
  fold_left (fun result n => result +:+ Hex.hexOf n) (map NInt b) acc =
  acc +:+ Hex.bytesHex b.
Proof.
  intros Hb. revert acc. induction Hb as [|x b Hx Hb IH]; intros acc; simpl.
  - now rewrite append_empty_r.
  - rewrite IH, append_assoc. destruct (byte_facts x Hx) as (-> & _). reflexivity.
Qed.

Lemma toLowerCase_bytesHex (b : list Z) :
  Forall byte b -> JsString.toLowerCase (Hex.bytesHex b) = Hex.bytesHex b.
Proof.
  induction 1 as [|x b Hx Hb IH]; [reflexivity |].
  cbn [Hex.bytesHex]. rewrite toLowerCase_app, IH. destruct (byte_facts x Hx) as (_ & -> & _).
  reflexivity.
Qed.

Lemma toHex_bytes (b : list Z) :
  Forall byte b -> Hex.toHex (map NInt b) = Hex.bytesHex b.
Proof.
  intros Hb. unfold Hex.toHex. rewrite toHex_loop by assumption.
  simpl. now apply toLowerCase_bytesHex.
Qed.

Lemma toNumbers_bytesHex (b : list Z) :
  Forall byte b -> Hex.toNumbers (Hex.bytesHex b) = map NInt b.
Proof.
  induction 1 as [|x b Hx Hb IH]; [reflexivity |].
  cbn [Hex.bytesHex map]. rewrite toNumbers_byteHex_app by assumption.
  now rewrite IH.
Qed.

Lemma length_bytesHex (b : list Z) : String.length (Hex.bytesHex b) = 2 * length b.
Proof. induction b as [|x b IH]; simpl; [reflexivity | rewrite IH; lia]. Qed.

Lemma hexDigit_not_terminator (c : ascii) :
  Hex.isHexDigit c = true -> Hex.isLineTerminator c = false.
Proof.
  destruct c as [[] [] [] [] [] [] [] []]; vm_compute; congruence.
Qed.

(** Without its last character, by [substring]. *)
Lemma toNumbers_odd (n : nat) (h : string) :
  String.length h = 2 * n + 1 ->
  JsString.forallb Hex.isHexDigit h = true ->
  Hex.toNumbers h = Hex.toNumbers (String.substring 0 (2 * n) h).
Proof.
  revert h. induction n as [|n IH]; intros h Hlen Hhex.
  - destruct h as [|c [|? ?]]; try discriminate. reflexivity.
  - destruct h as [|c1 [|c2 rest]]; try (simpl in Hlen; lia).
    replace (2 * S n) with (S (S (2 * n))) by lia.
    simpl in Hlen. simpl in Hhex. rewrite !andb_true_iff in Hhex.
    destruct Hhex as (H1 & H2 & Hrest).
    cbn [String.substring Hex.toNumbers].
    rewrite (hexDigit_not_terminator _ H1), (hexDigit_not_terminator _ H2).
    cbn [negb andb]. f_equal. apply IH; [lia | assumption].
Qed.

Lemma toNumbers_odd_length (n : nat) (h : string) :
  String.length h = 2 * n + 1 ->
  JsString.forallb Hex.isHexDigit h = true ->
  length (Hex.toNumbers h) = n.
Proof.
  revert h. induction n as [|n IH]; intros h Hlen Hhex.
  - destruct h as [|c [|? ?]]; try discriminate. reflexivity.
  - destruct h as [|c1 [|c2 rest]]; try (simpl in Hlen; lia).
    simpl in Hlen. simpl in Hhex. rewrite !andb_true_iff in Hhex.
    destruct Hhex as (H1 & H2 & Hrest).
    cbn [Hex.toNumbers].
    rewrite (hexDigit_not_terminator _ H1), (hexDigit_not_terminator _ H2).
    cbn [negb andb length]. f_equal. apply IH; [lia | assumption].
Qed.

End HexFacts.

(** C6. For bytes [b], [toNumbers (toHex b)] is [b]; [toHex b] is the
    bytes' two lowercase hexadecimal digits each, so twice as long as [b];
    and on a hex string of odd length [toNumbers] gives what it gives on
    the string without its last character, one number per pair. *)
Theorem hex_round_trip (b : list Z) :
  Forall (fun x => 0 <= x < 256)%Z b ->
  Hex.toNumbers (Hex.toHex (map NInt b)) = map NInt b /\
  Hex.toHex (map NInt b) = Hex.bytesHex b /\
  String.length (Hex.toHex (map NInt b)) = 2 * length b /\
  (forall h : string,
     JsString.forallb Hex.isHexDigit h = true ->
     Nat.Odd (String.length h) ->
     Hex.toNumbers h =
     Hex.toNumbers (String.substring 0 (String.length h - 1) h) /\
     length (Hex.toNumbers h) = (String.length h - 1) / 2).
Proof.
  intros Hb. rewrite (toHex_bytes b Hb).
  split; [now apply toNumbers_bytesHex |].
  split; [reflexivity |].
  split; [apply length_bytesHex |].
  intros h Hhex [n Hn]. rewrite Hn.
  replace (2 * n + 1 - 1) with (2 * n) by lia. split.
  - now apply toNumbers_odd.
  - rewrite (toNumbers_odd_length n h Hn Hhex).
    rewrite Nat.mul_comm, Nat.div_mul by lia. reflexivity.
Qed.

Lemma hex_round_trip_witness :
  Hex.toNumbers (Hex.toHex Sample.plain) = Sample.plain /\
  Hex.toHex Sample.plain = "000affab" /\
  Hex.toNumbers "000affabc" = Hex.toNumbers "000affab".
Proof.
  assert (Hb : Forall (fun x => 0 <= x < 256)%Z [0; 10; 255; 171]%Z)
    by (repeat constructor; lia).
  destruct (hex_round_trip [0; 10; 255; 171]%Z Hb) as (H1 & H2 & _ & H4).
  split; [exact H1 | split; [exact H2 |]].
  apply (H4 "000affabc"); [reflexivity | exists 4; reflexivity].
Defined.

(** ** Extractor *)

Section MatcherFacts.
Context {R : Type}.
Implicit Types (cls : ascii -> bool) (s acc g : string).

Lemma star_stop cls (k : string -> option R) s :
  stops cls s -> star cls k s = k s.
Proof. destruct s as [|c s]; simpl; [reflexivity | now intros ->]. Qed.

Lemma plusCapture_stop cls (k : string -> string -> option R) acc s :
  stops cls s -> plusCapture cls k acc s = None.
Proof. destruct s as [|c s]; simpl; [reflexivity | now intros ->]. Qed.


Lemma star_inv cls (k : string -> option R) s (r : R) :
  star cls k s = Some r -> exists s', k s' = Some r.
Proof.
  induction s as [|c s IH]; simpl; [eauto |].
  destruct (cls c); [| eauto].
  destruct (star cls k s) as [r'|] eqn:E; [| eauto].
  intros [= ->]. now apply IH.
Qed.

(** Whatever the group took is not empty and lies in the class. *)
Lemma plusCapture_inv cls (k : string -> string -> option R) acc s (r : R) :
  plusCapture cls k acc s = Some r ->
  exists g s', g <> "" /\ JsString.forallb cls g = true /\
               k (acc +:+ g) s' = Some r.
Proof.
  revert acc. induction s as [|c s IH]; intros acc; simpl; [discriminate |].
  destruct (cls c) eqn:Hc; [| discriminate].
  destruct (plusCapture cls k (acc +:+ String c "") s) as [r'|] eqn:E.
  - intros [= ->]. destruct (IH _ E) as (g & s' & Hne & Hg & Hk).
    exists (String c g), s'. repeat split; [discriminate | | ].
    + simpl. now rewrite Hc, Hg.
    + rewrite append_assoc in Hk. exact Hk.
  - intros Hk. exists (String c ""), s. repeat split; [discriminate | | exact Hk].
    simpl. now rewrite Hc.
Qed.

End MatcherFacts.

Lemma matchHere_Lit c re caps s :
  matchHere (Lit c :: re) caps (String c s) = matchHere re caps s.
Proof. simpl. now rewrite Ascii.eqb_refl. Qed.

Lemma matchHere_Lit_ne c d re caps s :
  Ascii.eqb c d = false -> matchHere (Lit c :: re) caps (String d s) = None.
Proof. simpl. now intros ->. Qed.

Lemma matchHere_Star_stop cls re caps s :
  stops cls s -> matchHere (Star cls :: re) caps s = matchHere re caps s.
Proof. intros H. simpl. now apply star_stop. Qed.

Lemma matchHere_Plus_single cls re caps w s :
  cls w = true -> stops cls s ->
  matchHere (Plus cls :: re) caps (String w s) = matchHere re caps s.
Proof. intros Hw Hs. simpl. rewrite Hw. now rewrite plusCapture_stop. Qed.


Lemma isHexValue_inv (v : string) :
  isHexValue v = true -> v <> "" /\ JsString.forallb Hex.isHexDigit v = true.
Proof.
  unfold isHexValue. rewrite andb_true_iff, negb_true_iff, String.eqb_neq. tauto.
Qed.

Lemma isHexValue_intro (v : string) :
  v <> "" -> JsString.forallb Hex.isHexDigit v = true -> isHexValue v = true.
Proof.
  intros. unfold isHexValue. rewrite andb_true_iff, negb_true_iff, String.eqb_neq. tauto.
Qed.

(** One step of a match over a literal, or over white space that is
    absent or a single character. *)
Ltac regex_step :=
  first
    [ rewrite matchHere_Lit
    | rewrite matchHere_Star_stop by (exact eq_refl || assumption)
    | rewrite matchHere_Plus_single by (exact eq_refl || assumption) ].




(** The pattern of [x] does not match at a declaration of another name. *)
Lemma matchHere_var_other (x y : ascii) (v : string) caps s :
  Hex.isWhiteSpace y = false ->
  Ascii.eqb x y = false ->
  matchHere (varRe x) caps ("var " +:+ declares y v +:+ s) = None.
Proof.
  intros Hy Hxy. unfold varRe, assignRe, declares.
  rewrite !append_assoc. cbn [lits app String.append].
  do 3 regex_step. rewrite matchHere_Plus_single; [| reflexivity | exact Hy].
  now apply matchHere_Lit_ne.
Qed.


Lemma jsMatch_next re c s :
  matchHere re [] (String c s) = None -> jsMatch re (String c s) = jsMatch re s.
Proof. intros H. simpl. now rewrite H. Qed.

(** A pattern that begins with the letter v does not match inside a text
    without that letter. *)
Lemma jsMatch_skip re t s :
  noV t = true ->
  jsMatch (Lit "v" :: re) (t +:+ s) = jsMatch (Lit "v" :: re) s.
Proof.
  induction t as [|c t IH]; intros Ht; [reflexivity |].
  unfold noV in Ht. simpl in Ht. apply andb_true_iff in Ht as [Hc Ht].
  change (String c t +:+ s) with (String c (t +:+ s)).
  rewrite jsMatch_next; [now apply IH |].
  apply matchHere_Lit_ne. apply negb_true_iff in Hc.
  now rewrite Ascii.eqb_sym.
Qed.


Lemma noV_app (a b : string) : noV (a +:+ b) = noV a && noV b.
Proof.
  unfold noV. induction a as [|c a IH]; simpl; [reflexivity |].
  now rewrite IH, andb_assoc.
Qed.

Lemma hexDigit_not_v (c : ascii) :
  Hex.isHexDigit c = true -> negb (Ascii.eqb c "v") = true.
Proof.
  destruct c as [[] [] [] [] [] [] [] []]; vm_compute; congruence.
Qed.

Lemma noV_hex (v : string) : JsString.forallb Hex.isHexDigit v = true -> noV v = true.
Proof.
  unfold noV. induction v as [|c v IH]; simpl; [reflexivity |].
  rewrite !andb_true_iff. intros [Hc Hv]. split; [now apply hexDigit_not_v | now apply IH].
Qed.

Lemma noV_declares (x : ascii) (v : string) :
  Ascii.eqb x "v" = false -> isHexValue v = true -> noV (declares x v) = true.
Proof.
  intros Hx Hv. apply isHexValue_inv in Hv as [_ Hv]. unfold declares.
  change (String dquote v) with (String dquote "" +:+ v).
  rewrite !noV_app, (noV_hex v Hv).
  unfold noV at 1. cbn [JsString.forallb]. rewrite Hx. reflexivity.
Qed.

(** The search for a pattern that begins with v, failing at a declaration,
    resumes after the declaration and the text that follows it up to [s]. *)
Lemma jsMatch_pass re (y : ascii) (v sep s : string) :
  Ascii.eqb y "v" = false -> isHexValue v = true -> noV sep = true ->
  matchHere (Lit "v" :: re) [] ("var " +:+ declares y v +:+ sep +:+ s) = None ->
  jsMatch (Lit "v" :: re) ("var " +:+ declares y v +:+ sep +:+ s) =
  jsMatch (Lit "v" :: re) s.
Proof.
  intros Hy Hv Hsep Hfail.
  change ("var " +:+ declares y v +:+ sep +:+ s)
    with (String "v" ("ar " +:+ declares y v +:+ sep +:+ s)) in *.
  rewrite jsMatch_next by exact Hfail.
  replace ("ar " +:+ declares y v +:+ sep +:+ s)
    with (("ar " +:+ declares y v +:+ sep) +:+ s)
    by (now rewrite !append_assoc).
  apply jsMatch_skip. rewrite !noV_app, Hsep, (noV_declares y v Hy Hv).
  reflexivity.
Qed.

Lemma varRe_head (x : ascii) : varRe x = Lit "v" :: tl (varRe x).
Proof. reflexivity. Qed.

Lemma allRe_head : allRe = Lit "v" :: tl allRe.
Proof. reflexivity. Qed.

Section Layouts.
Variables x y z pre sep1 sep2 post : string.
Hypothesis Hx : isHexValue x = true.
Hypothesis Hy : isHexValue y = true.
Hypothesis Hz : isHexValue z = true.
Hypothesis Hpre : noV pre = true.
Hypothesis Hsep1 : noV sep1 = true.
Hypothesis Hsep2 : noV sep2 = true.






Hypothesis Hpost : noV post = true.





End Layouts.

(** What a match captures: one value per group, each a hex value. *)
Lemma matchHere_groups re : hexGroups re ->
  forall caps s caps', matchHere re caps s = Some caps' ->
  exists new, caps' = caps ++ new /\ length new = groupCount re /\
              Forall (fun g => isHexValue g = true) new.
Proof.
  induction 1 as [|a re Ha Hre IH]; intros caps s caps' Hm.
  - injection Hm as <-. exists []. now rewrite app_nil_r.
  - destruct a as [c | cls | cls | cls]; simpl in Hm.
    + destruct s as [|d s]; [discriminate |].
      destruct (Ascii.eqb c d); [| discriminate]. exact (IH _ _ _ Hm).
    + apply star_inv in Hm as [s' Hm]. exact (IH _ _ _ Hm).
    + apply plusCapture_inv in Hm as (g & s' & _ & _ & Hm). exact (IH _ _ _ Hm).
    + apply plusCapture_inv in Hm as (g & s' & Hne & Hg & Hm). simpl in Hm.
      destruct (IH _ _ _ Hm) as (new & -> & Hlen & Hall).
      exists (g :: new). rewrite <- app_assoc. repeat split.
      * unfold groupCount in *. simpl. now rewrite Hlen.
      * constructor; [| exact Hall]. apply isHexValue_intro; [exact Hne |].
        clear - Ha Hg. induction g as [|c g IHg]; [reflexivity |].
        simpl in *. apply andb_true_iff in Hg as [Hc Hg].
        now rewrite (Ha c Hc), IHg.
Qed.

Lemma jsMatch_inv re s caps :
  jsMatch re s = Some caps -> exists s', matchHere re [] s' = Some caps.
Proof.
  induction s as [|c s IH]; simpl.
  - destruct (matchHere re [] "") eqn:E; [intros [= <-]; eauto | discriminate].
  - destruct (matchHere re [] (String c s)) eqn:E; [intros [= <-]; eauto | exact IH].
Qed.

Lemma hexGroups_assignRe (x : ascii) : hexGroups (assignRe x).
Proof. unfold hexGroups, assignRe. cbn [lits app]. repeat constructor. auto. Qed.

Lemma hexGroups_varRe (x : ascii) : hexGroups (varRe x).
Proof.
  unfold varRe. apply Forall_app. split; [cbn; repeat constructor |].
  apply Forall_app. split; [repeat constructor | apply hexGroups_assignRe].
Qed.

Lemma hexGroups_allRe : hexGroups allRe.
Proof.
  unfold allRe, commaRe. repeat (apply Forall_app; split);
    first [apply hexGroups_varRe | apply hexGroups_assignRe
          | unfold hexGroups; repeat constructor; auto].
Qed.

Lemma varRe_match_one (x : ascii) (html : string) (m : list string) :
  jsMatch (varRe x) html = Some m -> isHexValue (group 1 m) = true.
Proof.
  intros Hm. apply jsMatch_inv in Hm as [s' Hm].
  apply (matchHere_groups _ (hexGroups_varRe x)) in Hm as (new & -> & Hlen & Hall).
  change (groupCount (varRe x)) with 1 in Hlen.
  destruct new as [|g [|? ?]]; try discriminate.
  now inversion Hall.
Qed.

Lemma allRe_match_three (html : string) (m : list string) :
  jsMatch allRe html = Some m ->
  isHexValue (group 1 m) = true /\ isHexValue (group 2 m) = true /\
  isHexValue (group 3 m) = true.
Proof.
  intros Hm. apply jsMatch_inv in Hm as [s' Hm].
  apply (matchHere_groups _ hexGroups_allRe) in Hm as (new & -> & Hlen & Hall).
  change (groupCount allRe) with 3 in Hlen.
  destruct new as [|g1 [|g2 [|g3 [|? ?]]]]; try discriminate.
  inversion Hall as [|? ? H1 Hall1]; subst.
  inversion Hall1 as [|? ? H2 Hall2]; subst.
  inversion Hall2 as [|? ? H3 _]; subst.
  now repeat split.
Qed.


(** The two layouts after script text that has the letter v and the
    word [var] in it. *)
Example layouts_agree_after_script :
  let before := "<script type='text/javascript'>function toNumbers(d){var e=[];return e}" in
  extractEncryptedValues (before +:+ multiStatement "f655" "9834" "fdd9" ";" ";") =
    Some {| ev_a := "f655"; ev_b := "9834"; ev_c := "fdd9" |} /\
  extractEncryptedValues (before +:+ commaJoined "f655" "9834" "fdd9") =
    Some {| ev_a := "f655"; ev_b := "9834"; ev_c := "fdd9" |}.
Proof. split; vm_compute; reflexivity. Qed.

(** White space where the patterns allow it. *)
Example extract_with_white_space :
  extractEncryptedValues
    ("var  a = toNumbers( " +:+ String dquote "f6" +:+ String dquote " ) ;" +:+
     String (ascii_of_nat 10) "var b=toNumbers(" +:+ String dquote "98" +:+
     String dquote ");var c =toNumbers(" +:+ String dquote "fD" +:+
     String dquote ")") =
  Some {| ev_a := "f6"; ev_b := "98"; ev_c := "fD" |}.
Proof. vm_compute. reflexivity. Qed.


(** ** Interceptor *)

(** C8. On a response that [detectFn] does not classify as a challenge
    the handler resolves with the response itself and logs nothing: the
    solver, [client.get] and [client.request] are not called. *)
Theorem non_challenge_passes_through
  (client : Client) (detectFn : Response -> bool)
  (processFn : Response -> Client -> M Response)
  (response : Response) (log : list Event) :
  detectFn response = false ->
  createCookieChallengeInterceptor client detectFn (spied processFn) response log =
  (Resolved response, log).
Proof. intros H. unfold createCookieChallengeInterceptor. now rewrite H. Qed.

Lemma non_challenge_passes_through_witness :
  let client := transportClient (Some "https://hbcc.free.nf")
                  (Sample.host Sample.directScript) in
  let response := Sample.okResponse Sample.request in
  createCookieChallengeInterceptor client
    (fun r => detectCookieChallenge (Some r))
    (spied (processCookieChallenge Sample.platform)) response [] =
  (Resolved response, []).
Proof.
  intros client response.
  apply (non_challenge_passes_through client
           (fun r => detectCookieChallenge (Some r))
           (processCookieChallenge Sample.platform) response []).
  reflexivity.
Defined.

(** The same on the interceptor with its default functions. *)
Lemma default_passes_through (P : Platform) (client : Client)
  (response : Response) (log : list Event) :
  detectCookieChallenge (Some response) = false ->
  defaultInterceptor P client response log = (Resolved response, log).
Proof.
  intros H. unfold defaultInterceptor, createCookieChallengeInterceptor.
  now rewrite H.
Qed.

(** A failed resolution, seen from the interceptor: the failure is logged
    on the console and thrown again. *)
Lemma interceptor_rethrows
  (client : Client) (detectFn : Response -> bool)
  (processFn : Response -> Client -> M Response)
  (response : Response) (log log' : list Event) (e : JsError) :
  detectFn response = true ->
  processFn response client log = (Rejected e, log') ->
  createCookieChallengeInterceptor client detectFn processFn response log =
  (Rejected e,
   log' ++ [EvConsoleError "Cookie challenge processing failed:"
              (if JsString.truthy (Some (err_message e))
               then inl (err_message e) else inr e)]).
Proof.
  intros Hd Hp. unfold createCookieChallengeInterceptor. rewrite Hd.
  unfold tryCatch, bind. rewrite Hp. reflexivity.
Qed.

(** C3. When the challenge is detected and its resolution is rejected
    with [e], the interceptor is rejected with [e], and the error handler,
    given an error that carries the response, is rejected with that
    error. *)
Theorem failed_resolution_rejects
  (client : Client) (detectFn : Response -> bool)
  (processFn : Response -> Client -> M Response)
  (response : Response) (log log' : list Event) (e : JsError) :
  detectFn response = true ->
  processFn response client log = (Rejected e, log') ->
  (exists log'',
     createCookieChallengeInterceptor client detectFn processFn response log =
     (Rejected e, log'')) /\
  (forall error : JsError,
     err_response error = Some response ->
     exists log'',
       onRejected (createCookieChallengeInterceptor client detectFn processFn)
         error log = (Rejected error, log'')).
Proof.
  intros Hd Hp.
  pose proof (interceptor_rethrows client detectFn processFn response log log' e
                Hd Hp) as Hi.
  split; [eexists; exact Hi |].
  intros error Hresp. unfold onRejected. rewrite Hresp.
  unfold tryCatch at 1. unfold bind at 1. rewrite Hi. eexists. reflexivity.
Qed.

(** C10. An error that carries a response which is not a challenge makes
    the error handler resolve with that response; so a request of the
    instance built by [createAxiosClient] that the transport rejects with
    such an error resolves. *)
Theorem error_with_plain_response_resolves
  (P : Platform) (client : Client) (error : JsError) (response : Response)
  (log : list Event) :
  err_response error = Some response ->
  detectCookieChallenge (Some response) = false ->
  onRejected (defaultInterceptor P client) error log = (Resolved response, log) /\
  (forall (fuel : nat) (baseURL : option string) (net : Network)
          (config : RequestConfig),
     net (log ++ [EvRequest config]) config = inl error ->
     client_request (createAxiosClient (S fuel) P baseURL net None) config log =
     (Resolved response, log ++ [EvRequest config])).
Proof.
  intros Hresp Hdet.
  assert (Hgen : forall c l,
            onRejected (defaultInterceptor P c) error l = (Resolved response, l)).
  { intros c l. unfold onRejected. rewrite Hresp.
    unfold tryCatch, bind. now rewrite default_passes_through. }
  split; [apply Hgen |].
  intros fuel baseURL net config Hnet.
  cbn [createAxiosClient client_request].
  unfold bind, emit, answer. rewrite Hnet. apply Hgen.
Qed.

Lemma failed_resolution_rejects_witness :
  let client := transportClient (Some "https://hbcc.free.nf") Sample.offline in
  let solve := createCookieChallengeInterceptor client
                 (fun r => detectCookieChallenge (Some r))
                 (processCookieChallenge Sample.platform) in
  let cause := newError "Failed to load slowAES: Network Error" in
  (exists log'', solve Sample.challengeResponse [] = (Rejected cause, log'')) /\
  (exists log'',
     onRejected solve
       {| err_message := "Request failed with status code 503";
          err_response := Some Sample.challengeResponse |} [] =
     (Rejected {| err_message := "Request failed with status code 503";
                  err_response := Some Sample.challengeResponse |}, log'')).
Proof.
  intros client solve cause.
  destruct (failed_resolution_rejects client
              (fun r => detectCookieChallenge (Some r))
              (processCookieChallenge Sample.platform)
              Sample.challengeResponse [] [Sample.aesGet] cause
              eq_refl eq_refl) as [H1 H2].
  split; [exact H1 | apply H2; reflexivity].
Defined.

Lemma error_with_plain_response_resolves_witness :
  let client := createAxiosClient 1 Sample.platform (Some "https://hbcc.free.nf")
                  (fun _ _ => inl Sample.notFoundError) None in
  client_request client Sample.request [] =
  (Resolved Sample.notFound, [EvRequest Sample.request]).
Proof.
  intros client.
  destruct (error_with_plain_response_resolves Sample.platform client
              Sample.notFoundError Sample.notFound [] eq_refl eq_refl) as [_ H].
  apply (H 0 (Some "https://hbcc.free.nf") (fun _ _ => inl Sample.notFoundError)
           Sample.request).
  reflexivity.
Defined.

(** ** ChallengeSolver: the base URL *)

Lemma bind_ret_r {A} (m : M A) (log : list Event) : (x <- m ;; ret x) log = m log.
Proof. unfold bind, ret. destruct (m log) as [[a | e |] log']; reflexivity. Qed.

(** The order in which [processCookieChallenge] looks for the base URL,
    when the request has a URL. *)
Lemma determineBaseURL_order (P : Platform) (client : Client)
  (originalRequest : RequestConfig) :
  (forall b, client_defaults_baseURL client = Some b -> b <> "" ->
     determineBaseURL P client originalRequest = Normal b) /\
  (JsString.truthy (client_defaults_baseURL client) = false ->
   JsString.truthy (cfg_url originalRequest) = true ->
   (forall u, newURL P (default "" (cfg_url originalRequest)) None = Some u ->
      determineBaseURL P client originalRequest =
      Normal (url_protocol u +:+ "//" +:+ url_host u)) /\
   (newURL P (default "" (cfg_url originalRequest)) None = None ->
    (forall b, cfg_baseURL originalRequest = Some b -> b <> "" ->
       determineBaseURL P client originalRequest = Normal b) /\
    (JsString.truthy (cfg_baseURL originalRequest) = false ->
       determineBaseURL P client originalRequest = Throws originError))).
Proof.
  unfold determineBaseURL. split.
  - intros b -> Hb. destruct b; [congruence | reflexivity].
  - intros -> ->. cbn [negb andb]. split.
    + intros u ->. destruct (url_protocol u); reflexivity.
    + intros ->. split.
      * intros b -> Hb. destruct b; [congruence | reflexivity].
      * intros ->. reflexivity.
Qed.

(** Without a base URL nothing is sent. *)
Lemma process_without_origin (P : Platform) (client : Client)
  (response : Response) (log : list Event) (e : JsError) :
  determineBaseURL P client (resp_config response) = Throws e ->
  exists e', processCookieChallenge P response client log = (Rejected e', log).
Proof.
  intros H. unfold processCookieChallenge.
  destruct (extractEncryptedValues _); [| eexists; reflexivity].
  rewrite H. eexists. reflexivity.
Qed.

Lemma extract_sample :
  extractEncryptedValues Sample.challengeHtml =
  Some {| ev_a := "f655ba9d09a112d4968c63579db590b4";
          ev_b := "98344c2eee86c3994890592585b49f80";
          ev_c := "fdd9f8ac7a55834004f21a883ac3e49e" |}.
Proof. vm_compute. reflexivity. Qed.

(** C4, at a request that has a base of its own and no URL: the client
    has no default origin, and the solver fails without a call although the
    request's base is there. *)
Theorem origin_ignores_base_of_request_without_url
  (P : Platform) (net : Network) (log : list Event) :
  cfg_baseURL (resp_config Sample.challengeByBase) =
    Some "https://hbcc.free.nf/test.php" /\
  processCookieChallenge P Sample.challengeByBase (transportClient None net) log =
  (Rejected originError, log).
Proof.
  split; [reflexivity |].
  unfold processCookieChallenge.
  change (data_toString (resp_data Sample.challengeByBase))
    with Sample.challengeHtml.
  rewrite extract_sample. reflexivity.
Qed.

(** ** CryptoLoader *)

Lemma load_fetch_failed (P : Platform) (client : Client) (baseURL : string)
  (log log' : list Event) (cause : JsError) :
  client_get client "/aes.js" (aesConfig baseURL) log = (Rejected cause, log') ->
  loadSlowAES P client baseURL log = (Rejected (loadError cause), log').
Proof.
  intros H. unfold loadSlowAES, tryCatch, bind. fold (aesConfig baseURL).
  rewrite H. reflexivity.
Qed.

Lemma load_script_threw (P : Platform) (client : Client) (baseURL : string)
  (log log' : list Event) (r : Response) (cause : JsError) :
  client_get client "/aes.js" (aesConfig baseURL) log = (Resolved r, log') ->
  runScript P (data_toString (resp_data r)) = ScriptThrows cause ->
  loadSlowAES P client baseURL log = (Rejected (loadError cause), log').
Proof.
  intros H Hs. unfold loadSlowAES, tryCatch, bind. fold (aesConfig baseURL).
  rewrite H, Hs. reflexivity.
Qed.

Lemma load_script_ran (P : Platform) (client : Client) (baseURL : string)
  (log log' : list Event) (r : Response)
  (result : option CryptoObject) (passedIn : CryptoObject) :
  client_get client "/aes.js" (aesConfig baseURL) log = (Resolved r, log') ->
  runScript P (data_toString (resp_data r)) = ScriptReturns result passedIn ->
  loadSlowAES P client baseURL log = (Resolved (loaded result passedIn), log').
Proof.
  intros H Hs. unfold loadSlowAES, tryCatch, bind. fold (aesConfig baseURL).
  rewrite H, Hs. unfold loaded.
  destruct result as [o|]; [destruct (co_decrypt o) |]; reflexivity.
Qed.

(** C5, as the code has it. A failed fetch and a script that throws make
    the loader fail with the cause's message after the fixed prefix; a script
    whose object has [decrypt] itself makes it resolve with that object; once
    the script has run the loader resolves, whatever the object offers; the
    solver then calls [decrypt] under either shape of the loader's object and
    throws when it has neither. *)
Theorem loader_outcomes (P : Platform) (client : Client) (baseURL : string)
  (log : list Event) :
  (forall cause log',
     client_get client "/aes.js" (aesConfig baseURL) log = (Rejected cause, log') ->
     loadSlowAES P client baseURL log = (Rejected (loadError cause), log')) /\
  (forall r log',
     client_get client "/aes.js" (aesConfig baseURL) log = (Resolved r, log') ->
     (forall cause,
        runScript P (data_toString (resp_data r)) = ScriptThrows cause ->
        loadSlowAES P client baseURL log = (Rejected (loadError cause), log')) /\
     (forall result passedIn,
        runScript P (data_toString (resp_data r)) = ScriptReturns result passedIn ->
        (forall o f, result = Some o -> co_decrypt o = Some f ->
           loadSlowAES P client baseURL log = (Resolved o, log')) /\
        (exists o, loadSlowAES P client baseURL log = (Resolved o, log')))) /\
  (forall (o : CryptoObject) (a b c : list JsNumber),
     (forall f, co_decrypt o = Some f -> callDecrypt o a b c = f c 2%Z a b) /\
     (forall f, co_decrypt o = None -> co_nested o = Some f ->
        callDecrypt o a b c = f c 2%Z a b) /\
     (co_decrypt o = None -> co_nested o = None ->
        callDecrypt o a b c = Throws (newError "slowAES.decrypt function not found"))).
Proof.
  split; [| split].
  - intros cause log'. apply load_fetch_failed.
  - intros r log' Hget. split.
    + intros cause. now apply load_script_threw.
    + intros result passedIn Hrun.
      pose proof (load_script_ran P client baseURL log log' r result passedIn
                    Hget Hrun) as Hload.
      split; [| eexists; exact Hload].
      intros o f -> Hf. rewrite Hload. unfold loaded. now rewrite Hf.
  - intros o a b c. unfold callDecrypt. repeat split.
    + now intros f ->.
    + now intros f -> ->.
    + now intros -> ->.
Qed.

Lemma loader_outcomes_witness :
  loadSlowAES Sample.platform
    (transportClient (Some "https://hbcc.free.nf") Sample.offline)
    "https://hbcc.free.nf" [] =
  (Rejected (newError "Failed to load slowAES: Network Error"), [Sample.aesGet]).
Proof.
  apply (proj1 (loader_outcomes Sample.platform
                  (transportClient (Some "https://hbcc.free.nf") Sample.offline)
                  "https://hbcc.free.nf" [])
           (newError "Network Error") [Sample.aesGet]).
  reflexivity.
Defined.

(** C5 as stated fails: the script ran, its object has no [decrypt] of
    either shape, and the loader resolves. *)
Lemma loader_resolves_without_decrypt :
  let client := transportClient None (Sample.host "var slowAES={}") in
  runScript Sample.platform "var slowAES={}" =
    ScriptReturns (Some emptyObject) emptyObject /\
  co_decrypt emptyObject = None /\ co_nested emptyObject = None /\
  loadSlowAES Sample.platform client "https://hbcc.free.nf" [] =
    (Resolved emptyObject, [Sample.aesGet]).
Proof. repeat split. Qed.

(** The object of a script that offers [decrypt] under [modeOfOperation]
    only does not survive the loader when the script binds a new object: the
    loader resolves with the object it passed in. *)
Lemma loader_drops_nested_result :
  let client := transportClient (Some "https://hbcc.free.nf")
                  (Sample.host Sample.nestedScript) in
  fst (loadSlowAES Sample.platform client "https://hbcc.free.nf" []) =
    Resolved emptyObject /\
  fst (processCookieChallenge Sample.platform Sample.challengeResponse client []) =
    Rejected (newError "slowAES.decrypt function not found").
Proof. split; vm_compute; reflexivity. Qed.

(** ** ChallengeSolver: the retry *)

Lemma orEmpty_default (o : option string) : orEmpty o = default "" o.
Proof. destruct o as [[|c s]|]; reflexivity. Qed.

Lemma filter_named_others (name : string) (params : list (string * string)) :
  List.filter (fun p => String.eqb (fst p) name) (otherParams name params) = [].
Proof.
  unfold otherParams. induction params as [|[k v] rest IH]; [reflexivity |].
  simpl. destruct (String.eqb k name) eqn:E; simpl; [exact IH |].
  now rewrite E.
Qed.

Lemma otherParams_idem (name : string) (params : list (string * string)) :
  otherParams name (otherParams name params) = otherParams name params.
Proof.
  unfold otherParams. induction params as [|[k v] rest IH]; [reflexivity |].
  simpl. destruct (String.eqb k name) eqn:E; simpl; [exact IH |].
  rewrite E. simpl. now rewrite IH.
Qed.

(** [set] leaves one pair of the name, with the value, and the pairs of
    the other names as they were. *)
Lemma searchParams_set_values (name value : string) (params : list (string * string)) :
  paramValues name (searchParams_set name value params) = [value].
Proof.
  unfold paramValues. induction params as [|[k v] rest IH]; simpl.
  - now rewrite String.eqb_refl.
  - destruct (String.eqb k name) eqn:E; simpl.
    + rewrite String.eqb_refl. simpl. f_equal.
      fold (otherParams name rest). now rewrite filter_named_others.
    + now rewrite E.
Qed.

Lemma searchParams_set_others (name value : string) (params : list (string * string)) :
  otherParams name (searchParams_set name value params) = otherParams name params.
Proof.
  induction params as [|[k v] rest IH]; simpl.
  - unfold otherParams. simpl. now rewrite String.eqb_refl.
  - destruct (String.eqb k name) eqn:E.
    + fold (otherParams name rest). unfold otherParams at 1 3. simpl.
      rewrite String.eqb_refl. simpl. apply otherParams_idem.
    + unfold otherParams in *. simpl. rewrite E. simpl. f_equal. exact IH.
Qed.

(** The solver, once the parameters, the base URL, the routine and the
    plaintext are there, is the one call of [client.request]. *)
Lemma process_reaches_retry (P : Platform) (response : Response) (client : Client)
  (log log1 : list Event) (enc : EncryptedValues) (base : string)
  (o : CryptoObject) (d : list JsNumber) :
  extractEncryptedValues (data_toString (resp_data response)) = Some enc ->
  determineBaseURL P client (resp_config response) = Normal base ->
  loadSlowAES P client base log = (Resolved o, log1) ->
  callDecrypt o (Hex.toNumbers (ev_a enc)) (Hex.toNumbers (ev_b enc))
    (Hex.toNumbers (ev_c enc)) = Normal d ->
  processCookieChallenge P response client log =
  client_request client
    (retryConfigOf (resp_config response)
       (buildRetryUrl P (resp_config response) base) (Hex.toHex d)) log1.
Proof.
  intros He Hb Hl Hd. unfold processCookieChallenge. rewrite He, Hb.
  cbn [liftCompletion]. unfold bind at 1. cbn [ret].
  unfold bind at 1. rewrite Hl. rewrite Hd. cbn [liftCompletion].
  unfold bind at 1. cbn [ret]. apply bind_ret_r.
Qed.

(** C2, as the code has it. The retry keeps the method, the body, the base
    and the response type of the original request; its headers are the
    original ones with [Cookie] set to [__test=] and the hex of the plaintext,
    whatever [Cookie] held before; its URL is the path and the query of the
    original URL resolved against the base, with [i] set to [1] and the other
    parameters kept, or, when the URL cannot be composed, the original URL
    with [i=1] appended after [?] or [&]. *)
Theorem retry_request_shape (P : Platform) (response : Response) (client : Client)
  (log log1 : list Event) (enc : EncryptedValues) (base : string)
  (o : CryptoObject) (d : list JsNumber) :
  extractEncryptedValues (data_toString (resp_data response)) = Some enc ->
  determineBaseURL P client (resp_config response) = Normal base ->
  loadSlowAES P client base log = (Resolved o, log1) ->
  callDecrypt o (Hex.toNumbers (ev_a enc)) (Hex.toNumbers (ev_b enc))
    (Hex.toNumbers (ev_c enc)) = Normal d ->
  let original := resp_config response in
  let originalUrl := default "" (cfg_url original) in
  exists retry : RequestConfig,
    processCookieChallenge P response client log = client_request client retry log1 /\
    cfg_method retry = cfg_method original /\
    cfg_data retry = cfg_data original /\
    cfg_baseURL retry = cfg_baseURL original /\
    cfg_responseType retry = cfg_responseType original /\
    cfg_headers retry !! "Cookie" = Some ("__test=" +:+ Hex.toHex d) /\
    (forall name : string, name <> "Cookie" ->
       cfg_headers retry !! name = cfg_headers original !! name) /\
    (forall bytes : list Z, d = map NInt bytes ->
       Forall (fun x => 0 <= x < 256)%Z bytes ->
       Hex.toHex d = Hex.bytesHex bytes) /\
    (forall u : URL, newURL P originalUrl (Some base) = Some u ->
       let params := searchParams_set "i" "1" (url_searchParams u) in
       cfg_url retry =
         Some (url_pathname u +:+
               match serializeParams P params with
               | EmptyString => ""
               | query => "?" +:+ query
               end) /\
       paramValues "i" params = ["1"] /\
       otherParams "i" params = otherParams "i" (url_searchParams u)) /\
    (newURL P originalUrl (Some base) = None ->
       cfg_url retry =
         Some (originalUrl +:+
               (if JsString.includes originalUrl "?" then "&" else "?") +:+ "i=1")).
Proof.
  intros He Hb Hl Hd original originalUrl.
  exists (retryConfigOf original (buildRetryUrl P original base) (Hex.toHex d)).
  split; [now apply (process_reaches_retry P response client log log1 enc base o d) |].
  cbn [retryConfigOf cfg_method cfg_data cfg_baseURL cfg_responseType cfg_headers cfg_url].
  repeat (split; [reflexivity |]).
  split; [apply lookup_insert_eq |].
  split; [intros name Hne; now apply lookup_insert_ne |].
  split; [intros bytes -> Hbytes; now apply toHex_bytes |].
  unfold buildRetryUrl. rewrite orEmpty_default. fold original originalUrl.
  split.
  - intros u Hu. rewrite Hu. split; [reflexivity |].
    split; [apply searchParams_set_values | apply searchParams_set_others].
  - intros Hu. now rewrite Hu.
Qed.

Lemma retry_request_shape_witness :
  let client := transportClient (Some "https://hbcc.free.nf")
                  (Sample.host Sample.directScript) in
  exists retry : RequestConfig,
    processCookieChallenge Sample.platform Sample.challengeResponse client [] =
      client_request client retry [Sample.aesGet] /\
    cfg_method retry = Some "get" /\
    cfg_headers retry !! "Cookie" = Some "__test=000affab" /\
    cfg_headers retry !! "Accept" = Some "application/json" /\
    cfg_url retry = Some "/test.php?i=1".
Proof.
  intros client.
  destruct (retry_request_shape Sample.platform Sample.challengeResponse client
              [] [Sample.aesGet] _ "https://hbcc.free.nf"
              {| co_decrypt := Some Sample.stubDecrypt; co_nested := None |}
              Sample.plain extract_sample eq_refl eq_refl eq_refl)
    as (retry & Hrun & Hm & _ & _ & _ & Hc & Hh & _ & Hu & _).
  exists retry. split; [exact Hrun |]. split; [exact Hm |].
  split; [exact Hc |]. split; [now rewrite Hh |].
  destruct (Hu _ eq_refl) as (Hurl & _). exact Hurl.
Defined.

(** C2 as stated fails: a [Cookie] header of the original request is
    replaced, not merged into. *)
Lemma retry_replaces_cookie_header :
  let client := transportClient (Some "https://hbcc.free.nf")
                  (Sample.host Sample.directScript) in
  cfg_headers Sample.requestWithCookie !! "Cookie" = Some "session=abc" /\
  exists retry : RequestConfig,
    snd (processCookieChallenge Sample.platform Sample.challengeWithCookie client []) =
      [Sample.aesGet; EvRequest retry] /\
    cfg_headers retry !! "Cookie" = Some "__test=000affab" /\
    JsString.includes "__test=000affab" "session=abc" = false.
Proof.
  split; [reflexivity |]. eexists. split; [vm_compute; reflexivity |].
  split; reflexivity.
Qed.

(** ** One retry per invocation, and the instance that re-enters *)

Lemma load_transport (P : Platform) (defaultBase : option string) (net : Network)
  (base : string) (log : list Event) (script : Response)
  (result : option CryptoObject) (passedIn : CryptoObject) :
  net (log ++ [EvGet "/aes.js" (aesConfig base)])
      (getConfig "/aes.js" (aesConfig base)) = inr script ->
  runScript P (data_toString (resp_data script)) = ScriptReturns result passedIn ->
  loadSlowAES P (transportClient defaultBase net) base log =
  (Resolved (loaded result passedIn), log ++ [EvGet "/aes.js" (aesConfig base)]).
Proof.
  intros Hnet Hrun.
  apply (load_script_ran P _ base log _ script result passedIn); [| exact Hrun].
  cbn [transportClient client_get]. unfold bind, emit, answer. now rewrite Hnet.
Qed.

(** C9, as the code has it. One invocation of the handler on a challenge
    sends the retry once through [client.request] and resolves with what that
    call resolves with, a second challenge page included, when the client has
    no interceptor. On the instance built by [createAxiosClient] the response
    to every [client.request], the retry's too, goes through the handler
    again. *)
Theorem retry_once_per_invocation (P : Platform) (defaultBase : option string)
  (net : Network) (response script : Response) (log : list Event)
  (enc : EncryptedValues) (base : string)
  (result : option CryptoObject) (passedIn : CryptoObject) (d : list JsNumber) :
  detectCookieChallenge (Some response) = true ->
  extractEncryptedValues (data_toString (resp_data response)) = Some enc ->
  determineBaseURL P (transportClient defaultBase net) (resp_config response) =
    Normal base ->
  net (log ++ [EvGet "/aes.js" (aesConfig base)])
      (getConfig "/aes.js" (aesConfig base)) = inr script ->
  runScript P (data_toString (resp_data script)) = ScriptReturns result passedIn ->
  callDecrypt (loaded result passedIn) (Hex.toNumbers (ev_a enc))
    (Hex.toNumbers (ev_b enc)) (Hex.toNumbers (ev_c enc)) = Normal d ->
  let retry := retryConfigOf (resp_config response)
                 (buildRetryUrl P (resp_config response) base) (Hex.toHex d) in
  let sent := log ++ [EvGet "/aes.js" (aesConfig base); EvRequest retry] in
  (forall second : Response,
     net sent retry = inr second ->
     defaultInterceptor P (transportClient defaultBase net) response log =
     (Resolved second, sent)) /\
  (forall (fuel : nat) (config : RequestConfig) (log0 : list Event)
          (answered : Response),
     net (log0 ++ [EvRequest config]) config = inr answered ->
     client_request (createAxiosClient (S fuel) P defaultBase net None) config log0 =
     defaultInterceptor P (createAxiosClient fuel P defaultBase net None)
       answered (log0 ++ [EvRequest config])).
Proof.
  intros Hdet Hext Hbase Hnet Hrun Hdec retry sent. split.
  - intros second Hsecond.
    unfold defaultInterceptor, createCookieChallengeInterceptor. rewrite Hdet.
    unfold tryCatch. rewrite bind_ret_r.
    rewrite (process_reaches_retry P response _ log _ enc base _ d Hext Hbase
               (load_transport P defaultBase net base log script result passedIn
                  Hnet Hrun) Hdec).
    cbn [transportClient client_request]. unfold bind, emit, answer.
    fold retry. rewrite <- app_assoc. cbn [app]. fold sent. now rewrite Hsecond.
  - intros fuel config log0 answered Hans.
    cbn [createAxiosClient client_request]. unfold bind, emit, answer.
    now rewrite Hans.
Qed.

Lemma retry_once_per_invocation_witness :
  let host : Network := fun _ config =>
    match cfg_url config with
    | Some "/aes.js" => inr (Sample.scriptResponse Sample.directScript config)
    | _ => inr Sample.challengeResponse
    end in
  let client := transportClient (Some "https://hbcc.free.nf") host in
  exists retry : RequestConfig,
    defaultInterceptor Sample.platform client Sample.challengeResponse [] =
      (Resolved Sample.challengeResponse, [Sample.aesGet; EvRequest retry]) /\
    detectCookieChallenge (Some Sample.challengeResponse) = true.
Proof.
  intros host client.
  destruct (retry_once_per_invocation Sample.platform (Some "https://hbcc.free.nf")
              host Sample.challengeResponse
              (Sample.scriptResponse Sample.directScript
                 (getConfig "/aes.js" (aesConfig "https://hbcc.free.nf")))
              [] _ "https://hbcc.free.nf"
              (Some {| co_decrypt := Some Sample.stubDecrypt; co_nested := None |})
              emptyObject Sample.plain
              eq_refl extract_sample eq_refl eq_refl eq_refl eq_refl) as [H _].
  eexists. split; [| reflexivity].
  apply (H Sample.challengeResponse). reflexivity.
Defined.

(** C9 as stated fails on the instance built by [createAxiosClient]: the
    host answers the first retry with the challenge page again, the instance
    resolves that page too, sends a second retry, and the caller gets the
    resource. *)
Lemma instance_resolves_second_challenge :
  let client := createAxiosClient 3 Sample.platform (Some "https://hbcc.free.nf")
                  Sample.challengesTwice None in
  let first := EvGet "/test.php" emptyConfig in
  exists (final second : Response) (retry1 retry2 : RequestConfig),
    client_get client "/test.php" emptyConfig [] =
      (Resolved final,
       [first; Sample.aesGet; EvRequest retry1; Sample.aesGet; EvRequest retry2]) /\
    Sample.challengesTwice [first; Sample.aesGet; EvRequest retry1] retry1 =
      inr second /\
    detectCookieChallenge (Some second) = true /\
    detectCookieChallenge (Some final) = false /\
    resp_data final = Sample.jsonBody.
Proof.
  do 4 eexists. split; [vm_compute; reflexivity |].
  split; [vm_compute; reflexivity |].
  repeat split.
Qed.

(** More unfoldings of the instance do not change that run. *)
Lemma second_challenge_any_fuel (fuel : nat) :
  client_get
    (createAxiosClient (3 + fuel) Sample.platform (Some "https://hbcc.free.nf")
       Sample.challengesTwice None) "/test.php" emptyConfig [] =
  client_get
    (createAxiosClient 3 Sample.platform (Some "https://hbcc.free.nf")
       Sample.challengesTwice None) "/test.php" emptyConfig [].
Proof. vm_compute. reflexivity. Qed.

(** ** The tests of the repository *)

Example test_without_encrypted_values :
  let response :=
    {| resp_ref := 0; resp_data := DString "<html><body>No challenge here</body></html>";
       resp_status := 200; resp_headers := ∅;
       resp_config :=
         {| cfg_url := Some "/test"; cfg_method := Some "get";
            cfg_baseURL := Some "https://example.com"; cfg_headers := ∅;
            cfg_data := None; cfg_responseType := None |} |} in
  processCookieChallenge Sample.platform response
    (transportClient None Sample.offline) [] =
  (Rejected (newError "Could not extract encrypted values from challenge"), []).
Proof. vm_compute. reflexivity. Qed.

Example test_without_base_url :
  let response :=
    {| resp_ref := 0;
       resp_data := DString ("<html><body><script>" +:+ Sample.declaration +:+
                             "</script></body></html>");
       resp_status := 200; resp_headers := ∅;
       resp_config :=
         {| cfg_url := Some "/test"; cfg_method := Some "get";
            cfg_baseURL := None; cfg_headers := ∅;
            cfg_data := None; cfg_responseType := None |} |} in
  processCookieChallenge Sample.platform response
    (transportClient None Sample.offline) [] =
  (Rejected originError, []).
Proof. vm_compute. reflexivity. Qed.

Example test_detect_without_data :
  detectCookieChallenge
    (Some {| resp_ref := 0; resp_data := DOther false "undefined";
             resp_status := 200; resp_headers := ∅; resp_config := emptyConfig |}) =
  false.
Proof. reflexivity. Qed.

Example toNumbers_drops_odd_character :
  Hex.toNumbers "abc" = [NInt 171].
Proof. reflexivity. Qed.

(* ===================================================================== *)
(** * Further properties *)
(* ===================================================================== *)

(** ** Hex codec, beyond bytes to hex and back *)

Lemma allChars_complete (c : ascii) : In c allChars.
Proof.
  unfold allChars. apply in_map_iff. exists (nat_of_ascii c).
  split; [apply ascii_nat_embedding |].
  apply in_seq. pose proof (nat_ascii_bounded c). lia.
Qed.

Lemma pairChecks_all :
  forallb (fun c1 => forallb (pairChecks c1) allChars) allChars = true.
Proof. vm_compute. reflexivity. Qed.

Lemma pairChecks_any (c1 c2 : ascii) : pairChecks c1 c2 = true.
Proof.
  pose proof pairChecks_all as H. rewrite forallb_forall in H.
  specialize (H c1 (allChars_complete c1)). rewrite forallb_forall in H.
  exact (H c2 (allChars_complete c2)).
Qed.

Lemma lowerChecks_all : forallb lowerChecks allChars = true.
Proof. vm_compute. reflexivity. Qed.

Lemma lowerChar_idem (c : ascii) :
  JsString.lowerChar (JsString.lowerChar c) = JsString.lowerChar c.
Proof.
  pose proof lowerChecks_all as H. rewrite forallb_forall in H.
  specialize (H c (allChars_complete c)). now apply Ascii.eqb_eq in H.
Qed.

Lemma toLowerCase_idem (s : string) :
  JsString.toLowerCase (JsString.toLowerCase s) = JsString.toLowerCase s.
Proof.
  induction s as [|c s IH]; simpl; [reflexivity |].
  now rewrite lowerChar_idem, IH.
Qed.

(** Induction on a string two characters at a time. *)
Lemma string_pair_ind (P : string -> Prop) :
  P "" -> (forall c, P (String c "")) ->
  (forall c1 c2 s, P s -> P (String c1 (String c2 s))) ->
  forall s, P s.
Proof.
  intros H0 H1 H2.
  assert (H : forall s, P s /\ forall c, P (String c s)).
  { induction s as [|c s [IHs IHc]]; split; auto. }
  intros s. apply H.
Qed.

Lemma hex_pair (c1 c2 : ascii) :
  Hex.isHexDigit c1 = true -> Hex.isHexDigit c2 = true ->
  isByte (Hex.parseInt16 (String c1 (String c2 ""))) = true /\
  Hex.hexOf (Hex.parseInt16 (String c1 (String c2 ""))) =
  String (JsString.lowerChar c1) (String (JsString.lowerChar c2) "").
Proof.
  intros H1 H2. pose proof (pairChecks_any c1 c2) as H.
  unfold pairChecks in H. rewrite H1, H2 in H. cbn [andb negb orb] in H.
  apply andb_true_iff in H as [Hb He]. now apply String.eqb_eq in He.
Qed.

Lemma toNumbers_pair (c1 c2 : ascii) (rest : string) :
  Hex.isLineTerminator c1 = false -> Hex.isLineTerminator c2 = false ->
  Hex.toNumbers (String c1 (String c2 rest)) =
  Hex.parseInt16 (String c1 (String c2 "")) :: Hex.toNumbers rest.
Proof. intros H1 H2. cbn [Hex.toNumbers]. now rewrite H1, H2. Qed.

Lemma toHex_loop_acc (l : list JsNumber) (acc : string) :
  fold_left (fun result n => result +:+ Hex.hexOf n) l acc =
  acc +:+ fold_left (fun result n => result +:+ Hex.hexOf n) l "".
Proof.
  revert acc. induction l as [|n l IH]; intros acc; simpl.
  - now rewrite append_empty_r.
  - rewrite IH, (IH (Hex.hexOf n)), append_assoc. reflexivity.
Qed.

Lemma toHex_cons (n : JsNumber) (l : list JsNumber) :
  Hex.toHex (n :: l) = JsString.toLowerCase (Hex.hexOf n) +:+ Hex.toHex l.
Proof.
  unfold Hex.toHex. simpl. rewrite toHex_loop_acc. apply toLowerCase_app.
Qed.

(** X1. Every pair of hex digits decodes to a byte: on a string of hex
    digits [toNumbers] gives one integer from 0 to 255 per pair, never
    [NaN]. *)
Theorem toNumbers_hex_gives_bytes (h : string) :
  JsString.forallb Hex.isHexDigit h = true ->
  forallb isByte (Hex.toNumbers h) = true /\
  length (Hex.toNumbers h) = String.length h / 2.
Proof.
  induction h as [| c | c1 c2 s IH] using string_pair_ind; intros Hhex.
  - split; reflexivity.
  - split; reflexivity.
  - simpl in Hhex. rewrite !andb_true_iff in Hhex. destruct Hhex as (H1 & H2 & Hs).
    rewrite toNumbers_pair by now apply hexDigit_not_terminator.
    destruct (IH Hs) as [IHb IHl]. destruct (hex_pair c1 c2 H1 H2) as [Hb _].
    split.
    + cbn [forallb]. now rewrite Hb, IHb.
    + cbn [length String.length]. rewrite IHl.
      change (S (S (String.length s))) with (1 * 2 + String.length s).
      rewrite Nat.div_add_l by lia. reflexivity.
Qed.

Lemma toNumbers_hex_gives_bytes_witness :
  forallb isByte (Hex.toNumbers "fD9e0") = true /\
  length (Hex.toNumbers "fD9e0") = 2.
Proof. apply (toNumbers_hex_gives_bytes "fD9e0"). reflexivity. Defined.

(** X2. Decoding a hex string of even length and encoding the numbers
    again gives the string in lowercase. *)
Theorem toHex_toNumbers_lowercases (h : string) :
  JsString.forallb Hex.isHexDigit h = true ->
  Nat.Even (String.length h) ->
  Hex.toHex (Hex.toNumbers h) = JsString.toLowerCase h.
Proof.
  induction h as [| c | c1 c2 s IH] using string_pair_ind; intros Hhex Heven.
  - reflexivity.
  - destruct Heven as [k Hk]. simpl in Hk. lia.
  - simpl in Hhex. rewrite !andb_true_iff in Hhex. destruct Hhex as (H1 & H2 & Hs).
    rewrite toNumbers_pair by now apply hexDigit_not_terminator.
    destruct (hex_pair c1 c2 H1 H2) as [_ He].
    rewrite toHex_cons, He. cbn [JsString.toLowerCase].
    rewrite !lowerChar_idem. cbn [String.append]. do 2 f_equal.
    apply IH; [exact Hs |].
    destruct Heven as [k Hk]. exists (k - 1). simpl in Hk. lia.
Qed.

Lemma toHex_toNumbers_lowercases_witness :
  Hex.toHex (Hex.toNumbers "FDD9f8Ac") = "fdd9f8ac".
Proof.
  apply (toHex_toNumbers_lowercases "FDD9f8Ac"); [reflexivity |].
  exists 4. reflexivity.
Defined.

(** X3. [toHex] of a concatenation is the concatenation of the two
    results, and its result is in lowercase whatever the numbers are. *)
Theorem toHex_app (l1 l2 : list JsNumber) :
  Hex.toHex (l1 ++ l2) = Hex.toHex l1 +:+ Hex.toHex l2 /\
  JsString.toLowerCase (Hex.toHex l1) = Hex.toHex l1.
Proof.
  split.
  - unfold Hex.toHex. rewrite fold_left_app, toHex_loop_acc. apply toLowerCase_app.
  - unfold Hex.toHex. apply toLowerCase_idem.
Qed.

(** X4. [toNumbers] of a concatenation is the concatenation of the two
    results when the first string has even length and no line terminator. *)
Theorem toNumbers_app (h1 h2 : string) :
  noTerminator h1 = true ->
  Nat.Even (String.length h1) ->
  Hex.toNumbers (h1 +:+ h2) = Hex.toNumbers h1 ++ Hex.toNumbers h2.
Proof.
  induction h1 as [| c | c1 c2 s IH] using string_pair_ind; intros Hterm Heven.
  - reflexivity.
  - destruct Heven as [k Hk]. simpl in Hk. lia.
  - unfold noTerminator in *. simpl in Hterm. rewrite !andb_true_iff in Hterm.
    destruct Hterm as (H1 & H2 & Hs). apply negb_true_iff in H1, H2.
    change (String c1 (String c2 s) +:+ h2) with (String c1 (String c2 (s +:+ h2))).
    rewrite !toNumbers_pair by assumption.
    cbn [app]. f_equal. apply IH; [exact Hs |].
    destruct Heven as [k Hk]. exists (k - 1). simpl in Hk. lia.
Qed.

Lemma toNumbers_app_witness :
  Hex.toNumbers ("f655" +:+ "9834") = Hex.toNumbers "f655" ++ Hex.toNumbers "9834".
Proof.
  apply (toNumbers_app "f655" "9834"); [reflexivity | exists 2; reflexivity].
Defined.

(** ** Extractor, beyond the two layouts *)







Lemma extract_values_hex (html : string) (found : EncryptedValues) :
  extractEncryptedValues html = Some found ->
  isHexValue (ev_a found) = true /\ isHexValue (ev_b found) = true /\
  isHexValue (ev_c found) = true.
Proof.
  unfold extractEncryptedValues.
  destruct (jsMatch (varRe "a") html) as [am|] eqn:Ea;
  destruct (jsMatch (varRe "b") html) as [bm|] eqn:Eb;
  destruct (jsMatch (varRe "c") html) as [cm|] eqn:Ec;
  try (destruct (jsMatch allRe html) as [m|] eqn:Em; [| discriminate];
       intros [= <-]; simpl; now apply (allRe_match_three html)).
  intros [= <-]. simpl.
  repeat split; eapply varRe_match_one; eassumption.
Qed.

(** X7. What the extractor returns always decodes to bytes: each of the
    three values gives, by [toNumbers], integers from 0 to 255, one per pair
    of its characters. *)
Theorem extracted_values_decode_to_bytes (html : string) (found : EncryptedValues) :
  extractEncryptedValues html = Some found ->
  Forall (fun v => forallb isByte (Hex.toNumbers v) = true /\
                   length (Hex.toNumbers v) = String.length v / 2)
         [ev_a found; ev_b found; ev_c found].
Proof.
  intros Hfound. destruct (extract_values_hex html found Hfound) as (Ha & Hb & Hc).
  repeat constructor;
    apply toNumbers_hex_gives_bytes; now apply isHexValue_inv.
Qed.

Lemma extracted_values_decode_to_bytes_witness :
  Forall (fun v => forallb isByte (Hex.toNumbers v) = true /\
                   length (Hex.toNumbers v) = String.length v / 2)
         ["f655ba9d09a112d4968c63579db590b4";
          "98344c2eee86c3994890592585b49f80";
          "fdd9f8ac7a55834004f21a883ac3e49e"].
Proof.
  exact (extracted_values_decode_to_bytes Sample.challengeHtml _ extract_sample).
Defined.

(** ** Detector, under added text *)

Lemma contains_embedded (body m pre post : string) :
  JsString.contains body m -> JsString.contains (pre +:+ body +:+ post) m.
Proof.
  intros (a & b & ->). exists (pre +:+ a), (b +:+ post).
  now rewrite !append_assoc.
Qed.

(** X8. Text added before and after a body that is a challenge leaves it
    a challenge. *)
Theorem detect_survives_added_text (r r' : Response) (body pre post : string) :
  resp_data r = DString body ->
  resp_data r' = DString (pre +:+ body +:+ post) ->
  detectCookieChallenge (Some r) = true ->
  detectCookieChallenge (Some r') = true.
Proof.
  intros Hr Hr'. rewrite (detect_string r body Hr), (detect_string r' _ Hr').
  rewrite !andb_true_iff, !includes_spec.
  intros (((H1 & H2) & H3) & H4).
  repeat split; now apply contains_embedded.
Qed.

Lemma detect_survives_added_text_witness :
  detectCookieChallenge
    (Some {| resp_ref := 8;
             resp_data := DString ("<!-- cached -->" +:+ Sample.challengeHtml +:+
                                   "<!-- end -->");
             resp_status := 200; resp_headers := ∅;
             resp_config := Sample.request |}) = true.
Proof.
  apply (detect_survives_added_text Sample.challengeResponse _
           Sample.challengeHtml "<!-- cached -->" "<!-- end -->");
    reflexivity.
Defined.

(** ** CryptoLoader and ChallengeSolver: the calls they make *)

Lemma load_transport_cases (P : Platform) (defaultBase : option string)
  (net : Network) (base : string) (log : list Event) :
  exists out,
    loadSlowAES P (transportClient defaultBase net) base log =
      (out, log ++ [EvGet "/aes.js" (aesConfig base)]) /\
    ((exists o, out = Resolved o) \/ (exists cause, out = Rejected (loadError cause))).
Proof.
  unfold loadSlowAES, tryCatch, bind. fold (aesConfig base).
  cbn [transportClient client_get]. unfold bind, emit, answer.
  destruct (net (log ++ [EvGet "/aes.js" (aesConfig base)])
              (getConfig "/aes.js" (aesConfig base))) as [e | r].
  - eexists. split; [reflexivity |]. right. now exists e.
  - destruct (runScript P (data_toString (resp_data r))) as [e | [o|] passedIn].
    + eexists. split; [reflexivity |]. right. now exists e.
    + destruct (co_decrypt o); eexists; (split; [reflexivity |]); left; eauto.
    + eexists. split; [reflexivity |]. left. eauto.
Qed.

(** X9. Through a client without interceptors the loader makes one call,
    the GET of [/aes.js] against the base it was given with a text response
    type, whatever the outcome; and it ends resolved or rejected with a
    load error. *)
Theorem loader_fetches_once (P : Platform) (defaultBase : option string)
  (net : Network) (base : string) (log : list Event) :
  snd (loadSlowAES P (transportClient defaultBase net) base log) =
    log ++ [EvGet "/aes.js"
              {| cfg_url := None; cfg_method := None; cfg_baseURL := Some base;
                 cfg_headers := ∅; cfg_data := None;
                 cfg_responseType := Some "text" |}] /\
  ((exists o, fst (loadSlowAES P (transportClient defaultBase net) base log) =
              Resolved o) \/
   (exists cause,
      fst (loadSlowAES P (transportClient defaultBase net) base log) =
      Rejected (newError ("Failed to load slowAES: " +:+ err_message cause)))).
Proof.
  destruct (load_transport_cases P defaultBase net base log) as (out & -> & Hout).
  split; [reflexivity |]. exact Hout.
Qed.






(** ** ChallengeSolver: the base URL it settles on *)

(** X11. The base URL the solver settles on is never the empty string,
    and it is the client's default whenever that is set and not empty; when
    no base URL is found the error is the one that names the base URL, and
    the client has no default. *)
Theorem base_url_is_never_empty (P : Platform) (client : Client)
  (originalRequest : RequestConfig) :
  match determineBaseURL P client originalRequest with
  | Normal base =>
    base <> "" /\
    (JsString.truthy (client_defaults_baseURL client) = true ->
     client_defaults_baseURL client = Some base)
  | Throws e =>
    e = newError "Could not determine base URL for slowAES loading" /\
    JsString.truthy (client_defaults_baseURL client) = false
  end.
Proof.
  unfold determineBaseURL.
  destruct (client_defaults_baseURL client) as [[|c b]|]; cbn [JsString.truthy negb andb].
  - destruct (JsString.truthy (cfg_url originalRequest)); [| now split].
    destruct (newURL P _ None) as [u|].
    + destruct (url_protocol u); cbn; (split; [discriminate | discriminate]).
    + destruct (cfg_baseURL originalRequest) as [[|c b]|]; cbn;
        try (now split); split; discriminate.
  - cbn. split; [discriminate | reflexivity].
  - destruct (JsString.truthy (cfg_url originalRequest)); [| now split].
    destruct (newURL P _ None) as [u|].
    + destruct (url_protocol u); cbn; (split; [discriminate | discriminate]).
    + destruct (cfg_baseURL originalRequest) as [[|c b]|]; cbn;
        try (now split); split; discriminate.
Qed.


(** ** The instance of [client.js] *)

Lemma instance_defaults (fuel : nat) (P : Platform) (baseURL : option string)
  (net : Network) (handler : option (Response -> M Response)) :
  client_defaults_baseURL (createAxiosClient fuel P baseURL net handler) = baseURL.
Proof. destruct fuel; reflexivity. Qed.

Lemma instance_request (fuel : nat) (P : Platform) (baseURL : option string)
  (net : Network) (config : RequestConfig) (log : list Event) :
  client_request (createAxiosClient (S fuel) P baseURL net None) config log =
  match net (log ++ [EvRequest config]) config with
  | inr r =>
    defaultInterceptor P (createAxiosClient fuel P baseURL net None) r
      (log ++ [EvRequest config])
  | inl e =>
    onRejected (defaultInterceptor P (createAxiosClient fuel P baseURL net None)) e
      (log ++ [EvRequest config])
  end.
Proof.
  cbn [createAxiosClient client_request]. unfold bind, emit, answer.
  destruct (net _ _); reflexivity.
Qed.

Lemma instance_get (fuel : nat) (P : Platform) (baseURL : option string)
  (net : Network) (url : string) (config : RequestConfig) (log : list Event) :
  client_get (createAxiosClient (S fuel) P baseURL net None) url config log =
  match net (log ++ [EvGet url config]) (getConfig url config) with
  | inr r =>
    defaultInterceptor P (createAxiosClient fuel P baseURL net None) r
      (log ++ [EvGet url config])
  | inl e =>
    onRejected (defaultInterceptor P (createAxiosClient fuel P baseURL net None)) e
      (log ++ [EvGet url config])
  end.
Proof.
  cbn [createAxiosClient client_get]. unfold bind, emit, answer.
  destruct (net _ _); reflexivity.
Qed.

Lemma transport_request (baseURL : option string) (net : Network)
  (config : RequestConfig) (log : list Event) :
  client_request (transportClient baseURL net) config log =
  match net (log ++ [EvRequest config]) config with
  | inr r => (Resolved r, log ++ [EvRequest config])
  | inl e => (Rejected e, log ++ [EvRequest config])
  end.
Proof.
  cbn [transportClient client_request]. unfold bind, emit, answer.
  destruct (net _ _); reflexivity.
Qed.

Lemma transport_get (baseURL : option string) (net : Network)
  (url : string) (config : RequestConfig) (log : list Event) :
  client_get (transportClient baseURL net) url config log =
  match net (log ++ [EvGet url config]) (getConfig url config) with
  | inr r => (Resolved r, log ++ [EvGet url config])
  | inl e => (Rejected e, log ++ [EvGet url config])
  end.
Proof.
  cbn [transportClient client_get]. unfold bind, emit, answer.
  destruct (net _ _); reflexivity.
Qed.

Lemma handlers_leave_plain_answer (P : Platform) (client : Client)
  (a : JsError + Response) (log : list Event) :
  plainAnswer a = true ->
  match a with
  | inr r => defaultInterceptor P client r log
  | inl e => onRejected (defaultInterceptor P client) e log
  end =
  match a with
  | inr r => (Resolved r, log)
  | inl e => (Rejected e, log)
  end.
Proof.
  destruct a as [e | r]; cbn [plainAnswer].
  - unfold onRejected. destruct (err_response e); [discriminate | reflexivity].
  - intros H. apply negb_true_iff in H. now apply default_passes_through.
Qed.

(** X13. When the transport answers with a response that is not a
    challenge, or with an error that carries no response, a request of the
    instance built by [createAxiosClient] ends as the same request of a
    client without interceptors does, with the same calls made; so for
    [client.get]. *)
Theorem instance_leaves_plain_answers (fuel : nat) (P : Platform)
  (baseURL : option string) (net : Network) (log : list Event) :
  (forall config : RequestConfig,
     plainAnswer (net (log ++ [EvRequest config]) config) = true ->
     client_request (createAxiosClient (S fuel) P baseURL net None) config log =
     client_request (transportClient baseURL net) config log) /\
  (forall (url : string) (config : RequestConfig),
     plainAnswer (net (log ++ [EvGet url config]) (getConfig url config)) = true ->
     client_get (createAxiosClient (S fuel) P baseURL net None) url config log =
     client_get (transportClient baseURL net) url config log).
Proof.
  split.
  - intros config H. rewrite instance_request, transport_request.
    now apply handlers_leave_plain_answer.
  - intros url config H. rewrite instance_get, transport_get.
    now apply handlers_leave_plain_answer.
Qed.

Lemma instance_leaves_plain_answers_witness :
  client_request
    (createAxiosClient 1 Sample.platform (Some "https://hbcc.free.nf")
       Sample.offline None) Sample.request [] =
  (Rejected (newError "Network Error"), [EvRequest Sample.request]).
Proof.
  rewrite (proj1 (instance_leaves_plain_answers 0 Sample.platform
                    (Some "https://hbcc.free.nf") Sample.offline [])
             Sample.request eq_refl).
  reflexivity.
Defined.

(** ** The instance against a host that keeps challenging *)

Lemma requestCount_app (l1 l2 : list Event) :
  Sample.requestCount (l1 ++ l2) = Sample.requestCount l1 + Sample.requestCount l2.
Proof.
  unfold Sample.requestCount. now rewrite List.filter_app, length_app.
Qed.

Lemma retry_url_again (config : RequestConfig) :
  cfg_url config = Some "/test.php?i=1" ->
  buildRetryUrl Sample.platform config "https://hbcc.free.nf" = "/test.php?i=1".
Proof. intros H. unfold buildRetryUrl. rewrite H. reflexivity. Qed.

(** X14. Against a host that answers the retried request with the
    challenge page every time, a request of the instance built by
    [createAxiosClient] does not end: however many times the instance is
    unfolded the run needs more, and each unfolding sends one more
    request. *)
Theorem instance_never_ends_on_repeated_challenge (net : Network) :
  servesChallenge net ->
  forall (fuel : nat) (config : RequestConfig) (log : list Event),
    cfg_url config = Some "/test.php?i=1" ->
    exists log',
      client_request
        (createAxiosClient fuel Sample.platform (Some "https://hbcc.free.nf")
           net None) config log = (OutOfFuel, log') /\
      Sample.requestCount log' = Sample.requestCount log + fuel.
Proof.
  intros [Hscript Hpage].
  set (base := "https://hbcc.free.nf").
  induction fuel as [|fuel IH]; intros config log Hurl.
  - exists log. split; [reflexivity | lia].
  - rewrite instance_request.
    destruct (Hpage (log ++ [EvRequest config]) config Hurl) as (r & -> & Hdata & Hcfg).
    set (log1 := log ++ [EvRequest config]).
    assert (Hcount1 : Sample.requestCount log1 = Sample.requestCount log + 1)
      by (unfold log1; now rewrite requestCount_app).
    assert (Hdet : detectCookieChallenge (Some r) = true)
      by (rewrite (detect_string r _ Hdata); reflexivity).
    assert (Hext : extractEncryptedValues (data_toString (resp_data r)) = Some _)
      by (rewrite Hdata; exact extract_sample).
    assert (Hbase : determineBaseURL Sample.platform
                      (createAxiosClient fuel Sample.platform (Some base) net None)
                      (resp_config r) = Normal base)
      by (unfold determineBaseURL; rewrite instance_defaults; reflexivity).
    unfold defaultInterceptor, createCookieChallengeInterceptor. rewrite Hdet.
    unfold tryCatch. rewrite bind_ret_r.
    destruct fuel as [|fuel].
    + exists log1. split; [| lia].
      unfold processCookieChallenge. rewrite Hext, Hbase. reflexivity.
    + set (get := EvGet "/aes.js" (aesConfig base)).
      destruct (Hscript (log1 ++ [get]) (getConfig "/aes.js" (aesConfig base)) eq_refl)
        as (script & Hnet & Hsdata).
      assert (Hload :
        loadSlowAES Sample.platform
          (createAxiosClient (S fuel) Sample.platform (Some base) net None) base log1 =
        (Resolved {| co_decrypt := Some Sample.stubDecrypt; co_nested := None |},
         log1 ++ [get])).
      { apply (load_script_ran Sample.platform _ base log1 _ script
                 (Some {| co_decrypt := Some Sample.stubDecrypt; co_nested := None |})
                 emptyObject).
        - rewrite instance_get. fold get. rewrite Hnet.
          apply default_passes_through.
          rewrite (detect_string script _ Hsdata). reflexivity.
        - rewrite Hsdata. reflexivity. }
      rewrite (process_reaches_retry Sample.platform r _ log1 _ _ base _ Sample.plain
                 Hext Hbase Hload eq_refl).
      rewrite Hcfg, retry_url_again by exact Hurl.
      destruct (IH (retryConfigOf config "/test.php?i=1" (Hex.toHex Sample.plain))
                  (log1 ++ [get]) eq_refl) as (log' & Hrun & Hcount).
      exists log'. split; [now rewrite Hrun |].
      rewrite Hcount, requestCount_app, Hcount1. cbn. lia.
Qed.

Lemma instance_never_ends_on_repeated_challenge_witness :
  exists log',
    client_request
      (createAxiosClient 6 Sample.platform (Some "https://hbcc.free.nf")
         alwaysChallenges None)
      (retryConfigOf Sample.request "/test.php?i=1" "000affab") [] =
    (OutOfFuel, log') /\
    Sample.requestCount log' = 6.
Proof.
  assert (Hhost : servesChallenge alwaysChallenges).
  { split; intros log config Hurl; unfold alwaysChallenges; rewrite Hurl;
      eexists; repeat split. }
  apply (instance_never_ends_on_repeated_challenge alwaysChallenges Hhost 6
           (retryConfigOf Sample.request "/test.php?i=1" "000affab") []).
  reflexivity.
Defined.

(** ** Hex codec on text that is not hexadecimal *)

Lemma nonHexChecks_all :
  forallb (fun c1 => forallb (nonHexChecks c1) allChars) allChars = true.
Proof. vm_compute. reflexivity. Qed.

Lemma nonHex_pair (c1 c2 : ascii) :
  Hex.isHexDigit c1 = false -> Hex.isHexDigit c2 = false ->
  Hex.parseInt16 (String c1 (String c2 "")) = NaN.
Proof.
  intros H1 H2. pose proof nonHexChecks_all as H. rewrite forallb_forall in H.
  specialize (H c1 (allChars_complete c1)). rewrite forallb_forall in H.
  specialize (H c2 (allChars_complete c2)). unfold nonHexChecks in H.
  rewrite H1, H2 in H. cbn [orb] in H.
  now destruct (Hex.parseInt16 (String c1 (String c2 ""))).
Qed.

(** X15. [toNumbers] does not fail on text that is not hexadecimal: a
    string without hex digits and without line terminators gives [NaN] for
    every pair of its characters. *)
Theorem toNumbers_without_digits_gives_NaN (s : string) :
  noHexDigit s = true -> noTerminator s = true ->
  Hex.toNumbers s = repeat NaN (String.length s / 2).
Proof.
  unfold noHexDigit, noTerminator.
  induction s as [| c | c1 c2 s IH] using string_pair_ind; intros Hhex Hterm.
  - reflexivity.
  - reflexivity.
  - simpl in Hhex, Hterm. rewrite !andb_true_iff in Hhex, Hterm.
    destruct Hhex as (H1 & H2 & Hs). destruct Hterm as (T1 & T2 & Ts).
    apply negb_true_iff in H1, H2, T1, T2.
    rewrite toNumbers_pair by assumption.
    rewrite (nonHex_pair c1 c2 H1 H2), (IH Hs Ts).
    cbn [String.length].
    change (S (S (String.length s))) with (1 * 2 + String.length s).
    rewrite Nat.div_add_l by lia. reflexivity.
Qed.

Lemma toNumbers_without_digits_gives_NaN_witness :
  Hex.toNumbers "xyz~!" = [NaN; NaN].
Proof.
  apply (toNumbers_without_digits_gives_NaN "xyz~!"); reflexivity.
Defined.

(** ** Extractor on a page that declares two values only *)

Section ExactMatch.
Context {R : Type}.

(** When the rest of the pattern cannot begin with a character of the
    class, the greedy group has one way to match: all of [g]. *)
Lemma plusCapture_exact (cls : ascii -> bool) (k : string -> string -> option R)
  (g acc s : string) :
  g <> "" -> JsString.forallb cls g = true -> stops cls s ->
  (forall acc' c s', cls c = true -> k acc' (String c s') = None) ->
  plusCapture cls k acc (g +:+ s) = k (acc +:+ g) s.
Proof.
  revert acc. induction g as [|c g IH]; intros acc Hne Hcls Hstop Hk; [congruence |].
  simpl in Hcls. apply andb_true_iff in Hcls as [Hc Hg].
  simpl. rewrite Hc.
  destruct g as [|c' g].
  - simpl. now rewrite plusCapture_stop.
  - rewrite (IH (acc +:+ String c "")); try easy.
    rewrite append_assoc. cbn [String.append].
    destruct (k (acc +:+ String c (String c' g)) s) eqn:E; [reflexivity |].
    simpl in Hg. apply andb_true_iff in Hg as [Hc' _].
    cbn [String.append]. now apply Hk.
Qed.

End ExactMatch.

Lemma matchHere_Capture_exact cls re caps g s :
  g <> "" -> JsString.forallb cls g = true -> cls dquote = false ->
  matchHere (Capture cls :: Lit dquote :: re) caps (g +:+ String dquote s) =
  matchHere re (caps ++ [g]) s.
Proof.
  intros Hne Hg Hq. cbn [matchHere].
  rewrite plusCapture_exact; try assumption.
  - cbn [String.append]. now rewrite Ascii.eqb_refl.
  - intros acc' c s' Hc. destruct (Ascii.eqb_spec dquote c) as [<- | _]; [congruence | reflexivity].
Qed.

(** The whole of a declaration's pattern on a declaration. *)
Lemma matchHere_assign_exact (x : ascii) (v : string) re caps s :
  isHexValue v = true ->
  matchHere (assignRe x ++ re) caps (declares x v +:+ s) =
  matchHere re (caps ++ [v]) s.
Proof.
  intros Hv. destruct (isHexValue_inv v Hv) as [Hne Hhex].
  unfold assignRe, declares.
  rewrite !append_assoc. cbn [lits app String.append].
  repeat regex_step.
  rewrite matchHere_Capture_exact by (assumption || reflexivity).
  repeat regex_step. reflexivity.
Qed.

Lemma matchHere_var_exact (x : ascii) (v : string) re caps s :
  Hex.isWhiteSpace x = false ->
  isHexValue v = true ->
  matchHere (varRe x ++ re) caps ("var " +:+ declares x v +:+ s) =
  matchHere re (caps ++ [v]) s.
Proof.
  intros Hx Hv. unfold varRe.
  rewrite <- !app_assoc. cbn [lits app String.append].
  do 3 regex_step. rewrite matchHere_Plus_single; [| reflexivity | exact Hx].
  now apply matchHere_assign_exact.
Qed.

Lemma matchHere_var_other_app (x y : ascii) (v : string) re caps s :
  Hex.isWhiteSpace y = false ->
  Ascii.eqb x y = false ->
  matchHere (varRe x ++ re) caps ("var " +:+ declares y v +:+ s) = None.
Proof.
  intros Hy Hxy. unfold varRe, assignRe, declares.
  rewrite <- !app_assoc, !append_assoc. cbn [lits app String.append].
  do 3 regex_step. rewrite matchHere_Plus_single; [| reflexivity | exact Hy].
  now apply matchHere_Lit_ne.
Qed.

(** White space and then a comma are not found in front of the word [var]
    when the text in between has no comma. *)
Lemma comma_not_found re caps (sep rest : string) :
  noComma sep = true ->
  matchHere (Star Hex.isWhiteSpace :: Lit "," :: re) caps
    (sep +:+ String "v" rest) = None.
Proof.
  intros Hsep. cbn [matchHere].
  induction sep as [|c sep IH].
  - reflexivity.
  - unfold noComma in Hsep. simpl in Hsep. apply andb_true_iff in Hsep as [Hc Hsep].
    apply negb_true_iff in Hc. cbn [String.append star].
    rewrite (IH Hsep).
    assert (Hk : matchHere (Lit "," :: re) caps (String c (sep +:+ String "v" rest)) = None)
      by (apply matchHere_Lit_ne; now rewrite Ascii.eqb_sym).
    cbn [matchHere] in Hk. rewrite Hk. now destruct (Hex.isWhiteSpace c).
Qed.

(** X16. A page that declares [a] and [b] and no [c] gives [null], not the
    two values found. *)
Theorem extract_two_of_three_is_null (x y pre sep post : string) :
  isHexValue x = true -> isHexValue y = true ->
  noV pre = true -> noV sep = true -> noComma sep = true -> noV post = true ->
  extractEncryptedValues (pre +:+ twoStatements x y sep +:+ post) = None.
Proof.
  intros Hx Hy Hpre Hsep Hcomma Hpost.
  assert (Hbody : pre +:+ twoStatements x y sep +:+ post =
                  pre +:+ "var " +:+ declares "a" x +:+ sep +:+
                  "var " +:+ declares "b" y +:+ post +:+ "")
    by (unfold twoStatements; now rewrite !append_assoc, append_empty_r).
  assert (Hc : jsMatch (varRe "c") (pre +:+ twoStatements x y sep +:+ post) = None).
  { rewrite Hbody, varRe_head, jsMatch_skip by assumption.
    rewrite jsMatch_pass; [| reflexivity | assumption | assumption |].
    - rewrite jsMatch_pass; [reflexivity | reflexivity | assumption | assumption |].
      rewrite <- varRe_head. now apply matchHere_var_other.
    - rewrite <- varRe_head. now apply matchHere_var_other. }
  assert (Hall : jsMatch allRe (pre +:+ twoStatements x y sep +:+ post) = None).
  { rewrite Hbody, allRe_head, jsMatch_skip by assumption.
    rewrite jsMatch_pass; [| reflexivity | assumption | assumption |].
    - rewrite jsMatch_pass; [reflexivity | reflexivity | assumption | assumption |].
      rewrite <- allRe_head. unfold allRe. now apply matchHere_var_other_app.
    - rewrite <- allRe_head. unfold allRe.
      rewrite matchHere_var_exact by (assumption || reflexivity).
      unfold commaRe. cbn [app].
      change ("var " +:+ declares "b" y +:+ post +:+ "")
        with (String "v" ("ar " +:+ declares "b" y +:+ post +:+ "")).
      now apply comma_not_found. }
  unfold extractEncryptedValues. rewrite Hc, Hall.
  destruct (jsMatch (varRe "a") _); [destruct (jsMatch (varRe "b") _) |]; reflexivity.
Qed.

Lemma extract_two_of_three_is_null_witness :
  extractEncryptedValues
    ("<script>" +:+ twoStatements "f655" "9834" ";" +:+ ";</script>") = None.
Proof.
  apply (extract_two_of_three_is_null "f655" "9834" "<script>" ";" ";</script>");
    reflexivity.
Defined.
